(** * Mi3AD ticket scanner and password helpers: a shallow embedding

  This development embeds three pieces of the application:

  - [src/app/scanner.tsx]: the handlers of [ScannerScreen]
    ([handleBarCodeScanned], [handleManualQRSubmit], [processQRCode],
    [confirmEntry], [resetScanner]) as functions on an explicit record
    holding the component state, the two refs and the booking list;
  - [src/utils/securityUtils.ts]: the password, encryption, storage, token
    and key helpers;
  - the two localisation providers.

  A handler of a function component is a closure of the render that
  created it: it reads the values [useState] and [useEvents] returned in
  that render, however the cells have moved since, while a ref is read
  and written where it stands.  Every handler of the screen therefore
  takes the state as last rendered beside the state as it stands; a state
  setter is a field update of the latter, an [Alert.alert] an output, and
  a re-render is an event of its own. *)

From Stdlib Require Import List String Ascii Bool Arith NArith DecimalString Lia.
From Stdlib Require Import ZArith ZifyNat.
Import ListNotations.
Open Scope string_scope.

(** The line feed written [\n] in the source's template literals. *)
Definition nl : string := String (ascii_of_nat 10) EmptyString.

Module Scanner.
Section ScannerScreen.

(** JavaScript numbers are kept abstract: the screen only compares a price
    with [0] and interpolates numbers into template literals. *)
Context {Num : Type}.
Variable isZero : Num -> bool.            (* n === 0 *)
Variable numToString : Num -> string.     (* `${n}` *)
Variable trim : string -> string.         (* String.prototype.trim *)

(** The keys of [statusColors] and [statusLabels]. *)
Inductive Status : Type := confirmed | cancelled | used.

Definition Status_eqb (a b : Status) : bool :=
  match a, b with
  | confirmed, confirmed | cancelled, cancelled | used, used => true
  | _, _ => false
  end.

(** Modelled from the spec: the [Booking] type of [@/context/EventContext],
    which is not among the sources; these are the fields of the spec's
    data model, and the only ones the screen reads. *)
Record Booking : Type := mkBooking {
  id : string;
  qrCode : string;
  status : Status;
  ticketCount : Num;
  totalPrice : Num
}.

Definition setStatus (st : Status) (b : Booking) : Booking :=
  {| id := id b; qrCode := qrCode b; status := st;
     ticketCount := ticketCount b; totalPrice := totalPrice b |}.

(** Modelled from the spec: [markTicketAsUsed] of [@/context/EventContext],
    which is not among the sources.  The spec's commit step sets
    [status = used] on the booking with the given identifier and touches
    nothing else.  [None] stands for a rejected promise; the spec names no
    condition under which the in-memory list rejects. *)
Definition markTicketAsUsed (bookingId : string) (bs : list Booking)
  : option (list Booking) :=
  Some (map (fun b => if id b =? bookingId then setStatus used b else b) bs).

(** The [type] field of [scanResult]. *)
Inductive ResultType : Type := success | error | warning.

Record ScanResult : Type := mkScanResult {
  type : ResultType;
  title : string;
  message : string
}.

(** An [Alert.alert(title, message, buttons)] call.  [onPressResets] tells
    whether the alert carries the button whose [onPress] is
    [resetScanner]; pressing it is the event [ResetScanner] below. *)
Record Alert : Type := mkAlert {
  alertTitle : string;
  alertMessage : string;
  onPressResets : bool
}.

(** [useState] cells, the two refs and the [bookings] of [useEvents()].
    [scanTimeoutRef] is [true] while a timer set by [resetScanner] is
    pending (neither fired nor cleared).  The same record serves for the
    state as it stands and for the state as a render showed it; of the
    latter a handler reads the cells and [bookings], never the refs. *)
Record State : Type := mkState {
  bookings : list Booking;
  scanned : bool;
  scanResult : option ScanResult;
  manualQRCode : string;
  lastScannedCode : string;
  scanTimeoutRef : bool
}.

Definition setScanned (v : bool) (s : State) : State :=
  {| bookings := bookings s; scanned := v; scanResult := scanResult s;
     manualQRCode := manualQRCode s; lastScannedCode := lastScannedCode s;
     scanTimeoutRef := scanTimeoutRef s |}.

Definition setScanResult (v : option ScanResult) (s : State) : State :=
  {| bookings := bookings s; scanned := scanned s; scanResult := v;
     manualQRCode := manualQRCode s; lastScannedCode := lastScannedCode s;
     scanTimeoutRef := scanTimeoutRef s |}.

Definition setManualQRCode (v : string) (s : State) : State :=
  {| bookings := bookings s; scanned := scanned s; scanResult := scanResult s;
     manualQRCode := v; lastScannedCode := lastScannedCode s;
     scanTimeoutRef := scanTimeoutRef s |}.

Definition setLastScannedCode (v : string) (s : State) : State :=
  {| bookings := bookings s; scanned := scanned s; scanResult := scanResult s;
     manualQRCode := manualQRCode s; lastScannedCode := v;
     scanTimeoutRef := scanTimeoutRef s |}.

Definition setScanTimeoutRef (v : bool) (s : State) : State :=
  {| bookings := bookings s; scanned := scanned s; scanResult := scanResult s;
     manualQRCode := manualQRCode s; lastScannedCode := lastScannedCode s;
     scanTimeoutRef := v |}.

Definition setBookings (v : list Booking) (s : State) : State :=
  {| bookings := v; scanned := scanned s; scanResult := scanResult s;
     manualQRCode := manualQRCode s; lastScannedCode := lastScannedCode s;
     scanTimeoutRef := scanTimeoutRef s |}.

(** [if (scanTimeoutRef.current) clearTimeout(scanTimeoutRef.current)] *)
Definition clearScanTimeout (s : State) : State := setScanTimeoutRef false s.

(** [bookings.find(b => b.qrCode === code)] *)
Definition findByQrCode (code : string) (bs : list Booking) : option Booking :=
  find (fun b => qrCode b =? code) bs.

(** The price part shared by the two template literals. *)
Definition priceText (p : Num) : string :=
  if isZero p then "مجاني" else numToString p ++ " د.ل".

(** [render] is the state as shown by the render this handler belongs to;
    of it the handler reads [bookings].  Nothing inside the [try] block can
    throw on a list of bookings (a [find] and field reads), so its [catch]
    branch is never taken and is not represented. *)
Definition processQRCode (render : State) (data : string) (s : State) : State :=
  let s := setScanned true s in
  let s := setLastScannedCode data s in
  match findByQrCode data (bookings render) with
  | None =>
      setScanResult (Some {|
        type := error;
        title := "تذكرة غير صالحة ❌";
        message := "رمز QR غير صحيح أو التذكرة غير موجودة في النظام" |}) s
  | Some booking =>
      if Status_eqb (status booking) used then
        setScanResult (Some {|
          type := warning;
          title := "تذكرة مستخدمة ⚠️";
          message := "تم استخدام هذه التذكرة مسبقاً" ++ nl ++
                     "عدد التذاكر: " ++ numToString (ticketCount booking) ++ nl ++
                     "السعر: " ++ priceText (totalPrice booking) |}) s
      else if Status_eqb (status booking) cancelled then
        setScanResult (Some {|
          type := error;
          title := "تذكرة ملغاة ❌";
          message := "هذه التذكرة تم إلغاؤها ولا يمكن استخدامها" |}) s
      else
        setScanResult (Some {|
          type := success;
          title := "تذكرة صالحة ✅";
          message := "تذكرة صحيحة!" ++ nl ++
                     "عدد التذاكر: " ++ numToString (ticketCount booking) ++ nl ++
                     "السعر: " ++ priceText (totalPrice booking) |}) s
  end.

(** The guard reads the [scanned] of the handler's render and the
    [lastScannedCode] ref as it stands. *)
Definition handleBarCodeScanned (render : State) (data : string) (s : State)
  : State :=
  if scanned render || (data =? lastScannedCode s) then s
  else processQRCode render data (clearScanTimeout s).

(** Reads the [manualQRCode] of the handler's render. *)
Definition handleManualQRSubmit (render : State) (s : State)
  : State * option Alert :=
  if trim (manualQRCode render) =? "" then
    (s, Some {| alertTitle := "خطأ"; alertMessage := "يرجى إدخال رمز QR";
                onPressResets := false |})
  else (processQRCode render (trim (manualQRCode render)) s, None).

(** Reads no cell, so it is the same in every render. *)
Definition resetScanner (s : State) : State :=
  let s := setScanned false s in
  let s := setScanResult None s in
  let s := setLastScannedCode "" s in
  let s := setManualQRCode "" s in
  let s := clearScanTimeout s in
  setScanTimeoutRef true s.

(** The callback of the timer armed by [resetScanner]. *)
Definition scanTimeoutFires (s : State) : State :=
  if scanTimeoutRef s then setScanned false (setScanTimeoutRef false s) else s.

Definition entryConfirmed : Alert :=
  {| alertTitle := "تم تأكيد الدخول! 🎉";
     alertMessage := "تم تسجيل دخول الضيف بنجاح";
     onPressResets := true |}.

Definition entryFailed : Alert :=
  {| alertTitle := "خطأ"; alertMessage := "فشل في تسجيل الدخول";
     onPressResets := false |}.

(** Looks the remembered code up in the [bookings] of the handler's render
    and tests the status found there; [markTicketAsUsed] then works on the
    list as it stands. *)
Definition confirmEntry (render : State) (s : State) : State * option Alert :=
  match findByQrCode (lastScannedCode s) (bookings render) with
  | Some booking =>
      if Status_eqb (status booking) confirmed then
        match markTicketAsUsed (id booking) (bookings s) with
        | Some bs' => (setBookings bs' s, Some entryConfirmed)
        | None => (resetScanner s, Some entryFailed)
        end
      else (s, None)
  | None => (s, None)
  end.

(** A mounted screen: the state as the last render showed it, whose
    handlers are the ones installed, and the state as it stands. *)
Record Screen : Type := mkScreen {
  rendered : State;
  current : State
}.

(** The screen right after a render of [s]. *)
Definition justRendered (s : State) : Screen :=
  {| rendered := s; current := s |}.

Definition setCurrent (s : State) (c : Screen) : Screen :=
  {| rendered := rendered c; current := s |}.

(** What can happen to a mounted screen. *)
Inductive Event : Type :=
| BarCodeScanned (data : string)   (* onBarcodeScanned *)
| ChangeText (text : string)       (* onChangeText = setManualQRCode *)
| ManualQRSubmit                   (* onPress = handleManualQRSubmit *)
| Classify (data : string)         (* processQRCode called directly *)
| ConfirmEntry                     (* onPress = confirmEntry *)
| ResetScanner                     (* onPress = resetScanner *)
| TimeoutFires                     (* the timer of resetScanner *)
| Rerender.                        (* React renders the component again *)

(** An event reaches the handler of the last render.  (A render whose
    [scanned] is set installs no barcode handler at all; the guard of
    [handleBarCodeScanned] gives the same outcome.) *)
Definition step (e : Event) (c : Screen) : Screen * option Alert :=
  match e with
  | BarCodeScanned data =>
      (setCurrent (handleBarCodeScanned (rendered c) data (current c)) c, None)
  | ChangeText text => (setCurrent (setManualQRCode text (current c)) c, None)
  | ManualQRSubmit =>
      (setCurrent (fst (handleManualQRSubmit (rendered c) (current c))) c,
       snd (handleManualQRSubmit (rendered c) (current c)))
  | Classify data =>
      (setCurrent (processQRCode (rendered c) data (current c)) c, None)
  | ConfirmEntry =>
      (setCurrent (fst (confirmEntry (rendered c) (current c))) c,
       snd (confirmEntry (rendered c) (current c)))
  | ResetScanner => (setCurrent (resetScanner (current c)) c, None)
  | TimeoutFires => (setCurrent (scanTimeoutFires (current c)) c, None)
  | Rerender => (justRendered (current c), None)
  end.

(** Runs the events in order; returns the final screen and, per event, the
    alert it raised. *)
Fixpoint run (es : list Event) (c : Screen) : Screen * list (option Alert) :=
  match es with
  | [] => (c, [])
  | e :: es' =>
      let '(c1, a) := step e c in
      let '(c2, l) := run es' c1 in
      (c2, a :: l)
  end.

(** What one redemption may do to a booking: nothing, or take it from
    [confirmed] to [used]. *)
Definition redeems (b b' : Booking) : Prop :=
  b' = b \/ (status b = confirmed /\ b' = setStatus used b).

(** The list a screen shows is one the list as it stands has grown out
    of, and identifiers are distinct. *)
Definition consistent (c : Screen) : Prop :=
  NoDup (map id (bookings (current c)))
  /\ Forall2 redeems (bookings (rendered c)) (bookings (current c)).

(** Is this the alert that confirms an entry? *)
Definition isEntryConfirmed (a : option Alert) : bool :=
  match a with
  | Some a =>
      (alertTitle a =? alertTitle entryConfirmed)
      && (alertMessage a =? alertMessage entryConfirmed)
      && Bool.eqb (onPressResets a) (onPressResets entryConfirmed)
  | None => false
  end.

Definition isConfirmEntry (e : Event) : bool :=
  match e with ConfirmEntry => true | _ => false end.

Definition isResetScanner (e : Event) : bool :=
  match e with ResetScanner => true | _ => false end.

End ScannerScreen.

Arguments Booking : clear implicits.
Arguments ScanResult : clear implicits.
Arguments State : clear implicits.
Arguments Screen : clear implicits.

End Scanner.

Module SecurityUtils.
Section HashPassword.

(** [crypto.subtle.digest('SHA-256', bytes)] of the browser and
    [Crypto.digestStringAsync(SHA256, text)] of expo-crypto are platform
    services; [None] stands for a rejected promise. *)
Variable subtleDigest : list ascii -> option (list ascii).
Variable digestStringAsync : string -> option string.

(** Where the module runs: [Platform.OS === 'web'], and whether
    [require('expo-crypto')] succeeded (the module-level [Crypto]). *)
Record Runtime : Type := mkRuntime {
  isWeb : bool;
  hasCrypto : bool
}.

(** One [Math.random()] draw, given by the two renderings the module
    takes of it: [.toString(36)] and [.toString()]. *)
Record Draw : Type := mkDraw {
  base36 : string;
  base10 : string
}.

(** [salt || fresh]: an absent and an empty salt are both falsy. *)
Definition orElse (salt : option string) (fresh : string) : string :=
  match salt with
  | Some s => if s =? "" then fresh else s
  | None => fresh
  end.

(** [text.substring(from, to)] for [from <= to]. *)
Definition jsSubstring (from to : nat) (text : string) : string :=
  substring from (to - from) text.

Definition hexDigit (n : nat) : ascii :=
  nth n (list_ascii_of_string "0123456789abcdef") "0"%char.

(** [b.toString(16).padStart(2, '0')] for a byte [b]. *)
Definition hexByte (b : ascii) : string :=
  let n := nat_of_ascii b in
  String (hexDigit (n / 16)) (String (hexDigit (n mod 16)) EmptyString).

(** [Array.from(bytes).map(hexByte).join('')] *)
Definition hexString (bytes : list ascii) : string :=
  fold_right (fun b acc => hexByte b ++ acc) "" bytes.

(** The code units of a string held here as UTF-8 text, when all of them
    are at most 0xFF; [None] otherwise, where [btoa] throws. *)
Fixpoint latin1 (bytes : list nat) : option (list nat) :=
  match bytes with
  | [] => Some []
  | b :: rest =>
      if (b <? 128)%nat then option_map (cons b) (latin1 rest)
      else
        match rest with
        | c :: rest' =>
            if ((b =? 194) || (b =? 195))%nat && (128 <=? c)%nat && (c <? 192)%nat
            then option_map (cons (c + (b - 194) * 64)%nat) (latin1 rest')
            else None
        | [] => None
        end
  end.

Definition base64Digit (n : nat) : ascii :=
  nth n (list_ascii_of_string
           "ABCDEFGHIJKLMNOPQRSTUVWXYZabcdefghijklmnopqrstuvwxyz0123456789+/")
      "="%char.

Fixpoint base64 (units : list nat) : string :=
  match units with
  | [] => ""
  | [a] =>
      String (base64Digit (a / 4))
        (String (base64Digit ((a mod 4) * 16)) "==")
  | [a; b] =>
      String (base64Digit (a / 4))
        (String (base64Digit ((a mod 4) * 16 + b / 16))
           (String (base64Digit ((b mod 16) * 4)) "="))
  | a :: b :: c :: rest =>
      String (base64Digit (a / 4))
        (String (base64Digit ((a mod 4) * 16 + b / 16))
           (String (base64Digit ((b mod 16) * 4 + c / 64))
              (String (base64Digit (c mod 64)) (base64 rest))))
  end.

(** The built-in [btoa]. *)
Definition btoa (text : string) : option string :=
  option_map base64 (latin1 (map nat_of_ascii (list_ascii_of_string text))).

(** [hashPassword(password, salt?)] with the draw [Math.random()] would
    return if called; [None] is the thrown [Error]. *)
Definition hashPassword (rt : Runtime) (draw : Draw)
    (password : string) (salt : option string) : option (string * string) :=
  if isWeb rt then
    let passwordSalt := orElse salt (jsSubstring 2 18 (base36 draw)) in
    let data := list_ascii_of_string (password ++ passwordSalt) in
    match subtleDigest data with
    | Some hashBuffer => Some (hexString hashBuffer, passwordSalt)
    | None => None
    end
  else if hasCrypto rt then
    match
      match salt with
      | Some s =>
          if s =? "" then option_map (jsSubstring 0 16) (digestStringAsync (base10 draw))
          else Some s
      | None => option_map (jsSubstring 0 16) (digestStringAsync (base10 draw))
      end
    with
    | Some passwordSalt =>
        match digestStringAsync (password ++ passwordSalt) with
        | Some hash => Some (hash, passwordSalt)
        | None => None
        end
    | None => None
    end
  else
    let passwordSalt := orElse salt (jsSubstring 2 18 (base36 draw)) in
    match btoa (password ++ passwordSalt) with
    | Some hash => Some (hash, passwordSalt)
    | None => None
    end.

(** [verifyPassword(password, hash, salt)]; [draw] is what [Math.random()]
    would return inside the nested [hashPassword]. *)
Definition verifyPassword (rt : Runtime) (draw : Draw)
    (password hash salt : string) : bool :=
  match hashPassword rt draw password (Some salt) with
  | Some (newHash, _) => newHash =? hash
  | None => false
  end.

End HashPassword.

(** ** Text, binary strings and the base64 built-ins

    A JavaScript string is held as its UTF-8 text.  The text of a string made
    of lone surrogates would not be well-formed UTF-8, and for those
    [encodeURIComponent] throws. *)

Definition bytesOf (text : string) : list nat :=
  map nat_of_ascii (list_ascii_of_string text).

Definition textOf (bytes : list nat) : string :=
  string_of_list_ascii (map ascii_of_nat bytes).

(** Octets, and code units of a binary string. *)
Definition byte_sized (l : list nat) : Prop := Forall (fun x => x < 256) l.

Definition isContinuation (b : nat) : bool := ((128 <=? b) && (b <? 192))%nat.

(** Well-formed UTF-8, as [decodeURIComponent] demands of the octets it
    decodes: no stray continuation byte, no overlong form, no surrogate,
    nothing above U+10FFFF. *)
Fixpoint validUtf8 (bytes : list nat) : bool :=
  match bytes with
  | [] => true
  | b :: rest =>
      if (b <? 128)%nat then validUtf8 rest
      else
        match rest with
        | [] => false
        | c1 :: rest1 =>
            if ((194 <=? b) && (b <=? 223))%nat then
              isContinuation c1 && validUtf8 rest1
            else
              match rest1 with
              | [] => false
              | c2 :: rest2 =>
                  if ((224 <=? b) && (b <=? 239))%nat then
                    (if (b =? 224)%nat then ((160 <=? c1) && (c1 <? 192))%nat
                     else if (b =? 237)%nat then ((128 <=? c1) && (c1 <? 160))%nat
                     else isContinuation c1)
                    && isContinuation c2 && validUtf8 rest2
                  else
                    match rest2 with
                    | [] => false
                    | c3 :: rest3 =>
                        if ((240 <=? b) && (b <=? 244))%nat then
                          (if (b =? 240)%nat then ((144 <=? c1) && (c1 <? 192))%nat
                           else if (b =? 244)%nat then ((128 <=? c1) && (c1 <? 144))%nat
                           else isContinuation c1)
                          && isContinuation c2 && isContinuation c3
                          && validUtf8 rest3
                        else false
                    end
              end
        end
  end.

(** The text of the string whose code units are [units], each at most
    0xFF: what [atob], [unescape] and [escape] trade in. *)
Fixpoint binaryString (units : list nat) : list nat :=
  match units with
  | [] => []
  | u :: rest =>
      if (u <? 128)%nat then u :: binaryString rest
      else (194 + (u - 128) / 64)%nat :: (128 + u mod 64)%nat :: binaryString rest
  end.

(** [unescape(encodeURIComponent(data))]: the string whose code units are
    the UTF-8 octets of [data]; [None] is the [URIError]. *)
Definition unescapeEncodeURIComponent (data : string) : option string :=
  if validUtf8 (bytesOf data) then Some (textOf (binaryString (bytesOf data)))
  else None.

(** [decodeURIComponent(escape(binary))]: the code units of [binary], all of
    which must be at most 0xFF, read as UTF-8; [None] is the [URIError]. *)
Definition decodeURIComponentEscape (binary : string) : option string :=
  match latin1 (bytesOf binary) with
  | Some units => if validUtf8 units then Some (textOf units) else None
  | None => None
  end.

Definition isAsciiWhitespace (c : ascii) : bool :=
  let n := nat_of_ascii c in
  ((n =? 9) || (n =? 10) || (n =? 12) || (n =? 13) || (n =? 32))%nat.

Definition isPad (c : ascii) : bool := (c =? "=")%char.

Definition base64Alphabet : list ascii :=
  list_ascii_of_string
    "ABCDEFGHIJKLMNOPQRSTUVWXYZabcdefghijklmnopqrstuvwxyz0123456789+/".

Fixpoint indexOf (c : ascii) (l : list ascii) (i : nat) : option nat :=
  match l with
  | [] => None
  | d :: l' => if (c =? d)%char then Some i else indexOf c l' (S i)
  end.

Definition base64Value (c : ascii) : option nat := indexOf c base64Alphabet 0.

(** One or two [=] at the very end are dropped. *)
Fixpoint dropPadding (l : list ascii) : list ascii :=
  match l with
  | [] => []
  | c :: l' =>
      if isPad c && match l' with
                    | [] => true
                    | [d] => isPad d
                    | _ => false
                    end
      then []
      else c :: dropPadding l'
  end.

Fixpoint base64Values (l : list ascii) : option (list nat) :=
  match l with
  | [] => Some []
  | c :: l' =>
      match base64Value c, base64Values l' with
      | Some v, Some vs => Some (v :: vs)
      | _, _ => None
      end
  end.

(** Four sextets give three octets; two or three left over give one or two,
    the spare bits being discarded. *)
Fixpoint decodeSextets (l : list nat) : list nat :=
  match l with
  | a :: b :: c :: d :: rest =>
      (a * 4 + b / 16)%nat :: ((b mod 16) * 16 + c / 4)%nat
        :: ((c mod 4) * 64 + d)%nat :: decodeSextets rest
  | [a; b; c] => [(a * 4 + b / 16)%nat; ((b mod 16) * 16 + c / 4)%nat]
  | [a; b] => [(a * 4 + b / 16)%nat]
  | _ => []
  end.

(** The forgiving base64 decoding of browsers. *)
Definition forgivingDecode (data : list ascii) : option (list nat) :=
  let data := filter (fun c => negb (isAsciiWhitespace c)) data in
  let data :=
    if (List.length data mod 4 =? 0)%nat then dropPadding data else data in
  if (List.length data mod 4 =? 1)%nat then None
  else option_map decodeSextets (base64Values data).

(** The built-in [atob]; [None] is the [InvalidCharacterError]. *)
Definition atob (data : string) : option string :=
  option_map (fun units => textOf (binaryString units))
    (forgivingDecode (list_ascii_of_string data)).

(** ** Encryption, storage, keys and tokens *)

(** [encryptData(data)]; [None] is the thrown [Error]. *)
Definition encryptData (rt : Runtime) (data : string) : option string :=
  if isWeb rt then
    match unescapeEncodeURIComponent data with
    | Some binary => btoa binary
    | None => None
    end
  else Some data.

(** [decryptData(encryptedData)]; [None] is the thrown [Error]. *)
Definition decryptData (rt : Runtime) (encryptedData : string) : option string :=
  if isWeb rt then
    match atob encryptedData with
    | Some binary => decodeURIComponentEscape binary
    | None => None
    end
  else Some encryptedData.

(** [localStorage] on the web, [AsyncStorage] elsewhere: a finite map from
    keys to strings.  Calls to it are taken to succeed. *)
Definition Storage : Type := string -> option string.

Definition emptyStorage : Storage := fun _ => None.

Definition getItem (key : string) (st : Storage) : option string := st key.

Definition setItem (key value : string) (st : Storage) : Storage :=
  fun k => if k =? key then Some value else st k.

Definition removeItem (key : string) (st : Storage) : Storage :=
  fun k => if k =? key then None else st k.

(** [storeSecureData(key, value)]; [None] is the thrown [Error]. *)
Definition storeSecureData (rt : Runtime) (key value : string) (st : Storage)
  : option Storage :=
  if isWeb rt then
    match encryptData rt value with
    | Some encryptedValue => Some (setItem ("secure_" ++ key) encryptedValue st)
    | None => None
    end
  else Some (setItem ("secure_" ++ key) value st).

(** [getSecureData(key)]; [None] is [null]. *)
Definition getSecureData (rt : Runtime) (key : string) (st : Storage)
  : option string :=
  if isWeb rt then
    match getItem ("secure_" ++ key) st with
    | Some encryptedValue =>
        if encryptedValue =? "" then None
        else
          match decryptData rt encryptedValue with
          | Some value => Some value
          | None => None
          end
    | None => None
    end
  else getItem ("secure_" ++ key) st.

(** [deleteSecureData(key)] *)
Definition deleteSecureData (rt : Runtime) (key : string) (st : Storage)
  : Storage :=
  if isWeb rt then removeItem ("secure_" ++ key) st
  else removeItem ("secure_" ++ key) st.

Section Tokens.

Variable digestStringAsync : string -> option string.

(** The most bytes [crypto.getRandomValues] fills in one call; asked for
    more, it throws a [QuotaExceededError]. *)
Definition randomValuesQuota : nat := N.to_nat 65536.

(** [generateSecureToken(length)].  [randomArray] is what
    [crypto.getRandomValues(new Uint8Array(length))] returns when it
    returns, [draw] the [Math.random()] draw and [now36] is
    [Date.now().toString(36)]; [None] is the thrown [Error]. *)
Definition generateSecureToken (rt : Runtime) (randomArray : list ascii)
    (draw : Draw) (now36 : string) (length : nat) : option string :=
  if isWeb rt then
    if (randomValuesQuota <? length)%nat then None
    else Some (jsSubstring 0 length (hexString randomArray))
  else if hasCrypto rt then
    let randomString := jsSubstring 2 (2 + length) (base36 draw) ++ now36 in
    match digestStringAsync randomString with
    | Some hash => Some (jsSubstring 0 length hash)
    | None => None
    end
  else Some (jsSubstring 2 (2 + length) (base36 draw)).

(** [generateEncryptionKey()], as the pair [(key, iv)].  [random32] and
    [random16] are the two arrays of random bytes drawn on the web,
    [drawKey], [drawIv] the two [Math.random()] draws and [now10] is
    [Date.now().toString()]. *)
Definition generateEncryptionKey (rt : Runtime) (random32 random16 : list ascii)
    (drawKey drawIv : Draw) (now10 : string) : option (string * string) :=
  if isWeb rt then
    Some (jsSubstring 0 32 (hexString random32),
          jsSubstring 0 16 (hexString random16))
  else if hasCrypto rt then
    match digestStringAsync (base10 drawKey) with
    | Some key =>
        match digestStringAsync now10 with
        | Some iv => Some (jsSubstring 0 32 key, jsSubstring 0 16 iv)
        | None => None
        end
    | None => None
    end
  else
    Some (jsSubstring 2 34 (base36 drawKey), jsSubstring 2 18 (base36 drawIv)).

End Tokens.

End SecurityUtils.

(** * The two localisation providers

    [src/context/I18nContext.tsx] derives the locale from the device;
    the second provider also remembers the user's choice in [AsyncStorage]
    under the key [language].  The text lookup [t] belongs to the i18n-js
    library and is not modelled. *)
Module I18n.
Section Providers.

(** The names other than [ar] and [en] for which [translations[name]] is
    truthy: those found on [Object.prototype]. *)
Variable inheritedProperty : string -> bool.

(** [translations[name]] is truthy. *)
Definition hasTranslations (name : string) : bool :=
  (name =? "ar") || (name =? "en") || inheritedProperty name.

(** [locale.split('-')[0]] *)
Fixpoint firstSegment (locale : string) : string :=
  match locale with
  | EmptyString => EmptyString
  | String c rest =>
      if (c =? "-")%char then EmptyString else String c (firstSegment rest)
  end.

(** [translations[deviceLocale] ? deviceLocale : 'en'] for the language part
    of [Localization.locale]. *)
Definition supportedLocale (deviceLocale : string) : string :=
  if hasTranslations (firstSegment deviceLocale) then firstSegment deviceLocale
  else "en".

(** The [locale] state cell, the [locale] of the i18n instance and the
    [language] entry of [AsyncStorage] ([None]: no entry). *)
Record Provider : Type := mkProvider {
  locale : string;
  i18nLocale : string;
  language : option string
}.

Definition setBoth (l : string) (p : Provider) : Provider :=
  {| locale := l; i18nLocale := l; language := language p |}.

Definition isRTL (p : Provider) : bool := locale p =? "ar".

(** *** [src/context/I18nContext.tsx] *)

(** The state before any effect has run; this provider never reads the
    stored [language]. *)
Definition deviceProvider (deviceLocale : string) (stored : option string)
  : Provider :=
  {| locale := "en";
     i18nLocale := if firstSegment deviceLocale =? "" then "en"
                   else firstSegment deviceLocale;
     language := stored |}.

(** The body of its [useEffect]. *)
Definition deviceEffect (deviceLocale : string) (p : Provider) : Provider :=
  setBoth (supportedLocale deviceLocale) p.

(** Its [handleSetLocale]. *)
Definition handleSetLocale (newLocale : string) (p : Provider) : Provider :=
  setBoth newLocale p.

(** *** The provider that remembers the language *)

Definition savedProvider (stored : option string) : Provider :=
  {| locale := "en"; i18nLocale := "en"; language := stored |}.

(** [loadSavedLanguage()]; [getItemRejects] tells whether
    [AsyncStorage.getItem] rejects. *)
Definition loadSavedLanguage (getItemRejects : bool) (deviceLocale : string)
    (p : Provider) : Provider :=
  if getItemRejects then setBoth "en" p
  else
    match language p with
    | Some savedLanguage =>
        if negb (savedLanguage =? "") && hasTranslations savedLanguage
        then setBoth savedLanguage p
        else setBoth (supportedLocale deviceLocale) p
    | None => setBoth (supportedLocale deviceLocale) p
    end.

(** [changeLanguage(newLocale)]; [setItemRejects] tells whether
    [AsyncStorage.setItem] rejects, which the [catch] only logs. *)
Definition changeLanguage (setItemRejects : bool) (newLocale : string)
    (p : Provider) : Provider :=
  if hasTranslations newLocale then
    let p := setBoth newLocale p in
    if setItemRejects then p
    else {| locale := locale p; i18nLocale := i18nLocale p;
            language := Some newLocale |}
  else p.

(** What happens to the remembering provider: its effect runs, or somebody
    calls [changeLanguage] (or [setLocale], which forwards to it). *)
Inductive Action : Type :=
| Load (getItemRejects : bool) (deviceLocale : string)
| Change (setItemRejects : bool) (newLocale : string).

Definition act (a : Action) (p : Provider) : Provider :=
  match a with
  | Load rejects deviceLocale => loadSavedLanguage rejects deviceLocale p
  | Change rejects newLocale => changeLanguage rejects newLocale p
  end.

Definition actAll (l : list Action) (p : Provider) : Provider :=
  fold_left (fun p a => act a p) l p.

End Providers.
End I18n.

(** * Concrete inputs

  An instance of the abstract numbers (naturals, printed in decimal as
  [`${n}`] prints an integer) and the stores and states the examples
  below are evaluated on. *)
Module Demo.
Import Scanner.

Definition isZero (n : N) : bool := N.eqb n 0.

Definition numToString (n : N) : string :=
  NilZero.string_of_uint (N.to_uint n).

Definition isSpace (c : ascii) : bool :=
  let n := nat_of_ascii c in
  ((n =? 32) || (n =? 9) || (n =? 10) || (n =? 11) || (n =? 12) || (n =? 13))%nat.

Fixpoint trimStart (s : string) : string :=
  match s with
  | String c s' => if isSpace c then trimStart s' else s
  | EmptyString => EmptyString
  end.

Fixpoint trimEnd (s : string) : string :=
  match s with
  | String c s' =>
      match trimEnd s' with
      | EmptyString => if isSpace c then EmptyString else String c EmptyString
      | t => String c t
      end
  | EmptyString => EmptyString
  end.

(** [String.prototype.trim] on text whose only white space is ASCII. *)
Definition trim (s : string) : string := trimEnd (trimStart s).

Definition processQRCode := Scanner.processQRCode isZero numToString.
Definition handleBarCodeScanned := Scanner.handleBarCodeScanned isZero numToString.
Definition run := Scanner.run isZero numToString trim.
Definition step := Scanner.step isZero numToString trim.

(** The booking of the spec's first scenario, and two siblings. *)
Definition b1 : Booking N :=
  {| id := "b1"; qrCode := "MI3AD-001"; status := confirmed;
     ticketCount := 2%N; totalPrice := 0%N |}.

Definition b2 : Booking N :=
  {| id := "b2"; qrCode := "X"; status := cancelled;
     ticketCount := 1%N; totalPrice := 15%N |}.

Definition b3 : Booking N :=
  {| id := "b3"; qrCode := "MI3AD-003"; status := used;
     ticketCount := 4%N; totalPrice := 120%N |}.

Definition store : list (Booking N) := [b1; b2; b3].

(** A freshly mounted screen over [store]. *)
Definition mounted : State N :=
  {| bookings := store; scanned := false; scanResult := None;
     manualQRCode := ""; lastScannedCode := ""; scanTimeoutRef := false |}.

(** The state after the ticket of [b1] has been scanned by the handler of
    the first render. *)
Definition scannedValid : State N :=
  handleBarCodeScanned mounted "MI3AD-001" mounted.

(** The same state after [b1] has been redeemed elsewhere: the result on
    display still says the ticket is valid. *)
Definition redeemedElsewhere : State N :=
  setBookings [setStatus used b1; b2; b3] scannedValid.

(** [Math.random()] returning [0], and returning [0.5]. *)
Definition drawZero : SecurityUtils.Draw :=
  {| SecurityUtils.base36 := "0"; SecurityUtils.base10 := "0" |}.

Definition drawHalf : SecurityUtils.Draw :=
  {| SecurityUtils.base36 := "0.i"; SecurityUtils.base10 := "0.5" |}.

(** A native build in which [require('expo-crypto')] failed. *)
Definition noCrypto : SecurityUtils.Runtime :=
  {| SecurityUtils.isWeb := false; SecurityUtils.hasCrypto := false |}.

(** A browser. *)
Definition web : SecurityUtils.Runtime :=
  {| SecurityUtils.isWeb := true; SecurityUtils.hasCrypto := false |}.

(** A native build with expo-crypto. *)
Definition native : SecurityUtils.Runtime :=
  {| SecurityUtils.isWeb := false; SecurityUtils.hasCrypto := true |}.

(** A list in which a ticket was issued with an empty code. *)
Definition blankCode : Booking N :=
  {| id := "b0"; qrCode := ""; status := confirmed;
     ticketCount := 1%N; totalPrice := 5%N |}.

(** No name is inherited: a [translations] object without prototype. *)
Definition noInherited (name : string) : bool := false.

(** The properties every object inherits from [Object.prototype]. *)
Definition objectPrototype (name : string) : bool :=
  existsb (String.eqb name)
    ["constructor"; "hasOwnProperty"; "isPrototypeOf"; "propertyIsEnumerable";
     "toLocaleString"; "toString"; "valueOf"; "__proto__";
     "__defineGetter__"; "__defineSetter__"; "__lookupGetter__";
     "__lookupSetter__"].

End Demo.

(** * Properties of the scanner screen *)
Module ScannerProperties.
Import Scanner.

Section Classification.

Context {Num : Type}.
Variable isZero : Num -> bool.
Variable numToString : Num -> string.

Local Abbreviation processQRCode := (Scanner.processQRCode isZero numToString).
Local Abbreviation priceText := (Scanner.priceText isZero numToString).

Implicit Types (render s : State Num) (b : Booking Num).
Implicit Types (bs : list (Booking Num)).

Lemma Status_eqb_eq (a c : Status) : Status_eqb a c = true <-> a = c.
Proof. destruct a, c; simpl; split; congruence. Qed.

Lemma findByQrCode_absent code bs :
  (forall b, In b bs -> qrCode b <> code) -> findByQrCode code bs = None.
Proof.
  unfold findByQrCode.
  induction bs as [|b0 bs IH]; intros Habs; simpl; [reflexivity|].
  destruct (String.eqb_spec (qrCode b0) code) as [E|_].
  - exfalso. apply (Habs b0); [now left | exact E].
  - apply IH. intros b Hb. apply Habs. now right.
Qed.

Lemma findByQrCode_unique bs b :
  NoDup (map qrCode bs) -> In b bs -> findByQrCode (qrCode b) bs = Some b.
Proof.
  unfold findByQrCode.
  induction bs as [|b0 bs IH]; intros Hnd Hin; simpl; [destruct Hin|].
  inversion Hnd as [|q qs Hnotin Hnd']; subst.
  destruct Hin as [->|Hin].
  - now rewrite String.eqb_refl.
  - destruct (String.eqb_spec (qrCode b0) (qrCode b)) as [E|_].
    + exfalso. apply Hnotin. rewrite E. now apply in_map.
    + now apply IH.
Qed.

Lemma findByQrCode_some code bs b :
  findByQrCode code bs = Some b -> In b bs /\ qrCode b = code.
Proof.
  unfold findByQrCode. intros H. apply find_some in H.
  destruct H as [Hin Heq]. split; [exact Hin|].
  now apply String.eqb_eq.
Qed.

Lemma processQRCode_bookings render data s :
  bookings (processQRCode render data s) = bookings s.
Proof.
  unfold Scanner.processQRCode.
  destruct (findByQrCode data (bookings render)) as [b|]; [|reflexivity].
  destruct (Status_eqb (status b) used); [reflexivity|].
  destruct (Status_eqb (status b) cancelled); reflexivity.
Qed.

(** The result depends on the code and on the booking list the render
    shows, and on nothing else. *)
Lemma processQRCode_scanResult_ext data render1 s1 render2 s2 :
  bookings render1 = bookings render2 ->
  scanResult (processQRCode render1 data s1)
  = scanResult (processQRCode render2 data s2).
Proof.
  intros E. unfold Scanner.processQRCode. rewrite E.
  destruct (findByQrCode data (bookings render2)) as [b|]; [|reflexivity].
  destruct (Status_eqb (status b) used); [reflexivity|].
  destruct (Status_eqb (status b) cancelled); reflexivity.
Qed.

(** C4. A code that is the [qrCode] of no booking in the list the handler
    sees (string equality, no folding of case, no trimming) is classified
    as an invalid ticket: the error result saying the code is wrong or the
    ticket is not in the system; the booking list after the call is the
    list before it. *)
Theorem processQRCode_unknown_code render data s :
  (forall b, In b (bookings render) -> qrCode b <> data) ->
  scanResult (processQRCode render data s) =
    Some {| type := error;
            title := "تذكرة غير صالحة ❌";
            message := "رمز QR غير صحيح أو التذكرة غير موجودة في النظام" |}
  /\ bookings (processQRCode render data s) = bookings s.
Proof.
  intros Habs. split; [|apply processQRCode_bookings].
  unfold Scanner.processQRCode.
  now rewrite (findByQrCode_absent _ _ Habs).
Qed.

(** C5. In a list with pairwise distinct codes, scanning the code of a
    booking whose status is [used] gives the warning result "ticket already
    used", whose message prints that booking's [ticketCount] and its
    [totalPrice] (as "free" when it is zero); the booking list is
    unchanged. *)
Theorem processQRCode_used_booking render s b :
  NoDup (map qrCode (bookings render)) ->
  In b (bookings render) ->
  status b = used ->
  scanResult (processQRCode render (qrCode b) s) =
    Some {| type := warning;
            title := "تذكرة مستخدمة ⚠️";
            message := "تم استخدام هذه التذكرة مسبقاً" ++ nl ++
                       "عدد التذاكر: " ++ numToString (ticketCount b) ++ nl ++
                       "السعر: " ++ (if isZero (totalPrice b) then "مجاني"
                                     else numToString (totalPrice b) ++ " د.ل") |}
  /\ bookings (processQRCode render (qrCode b) s) = bookings s.
Proof.
  intros Hnd Hin Hst. split; [|apply processQRCode_bookings].
  unfold Scanner.processQRCode.
  rewrite (findByQrCode_unique _ _ Hnd Hin), Hst. reflexivity.
Qed.

(** C6. In a list with pairwise distinct codes, scanning the code of a
    booking whose status is [cancelled] gives the error result "ticket
    cancelled"; the booking list is unchanged. *)
Theorem processQRCode_cancelled_booking render s b :
  NoDup (map qrCode (bookings render)) ->
  In b (bookings render) ->
  status b = cancelled ->
  scanResult (processQRCode render (qrCode b) s) =
    Some {| type := error;
            title := "تذكرة ملغاة ❌";
            message := "هذه التذكرة تم إلغاؤها ولا يمكن استخدامها" |}
  /\ bookings (processQRCode render (qrCode b) s) = bookings s.
Proof.
  intros Hnd Hin Hst. split; [|apply processQRCode_bookings].
  unfold Scanner.processQRCode.
  rewrite (findByQrCode_unique _ _ Hnd Hin), Hst. reflexivity.
Qed.

(** C7. In a list with pairwise distinct codes, scanning the code of a
    booking whose status is [confirmed] gives the success result "valid
    ticket", whose message prints that booking's [ticketCount] and its
    [totalPrice] (as "free" when it is zero); the booking list is
    unchanged, so the booking is still [confirmed] after the call. *)
Theorem processQRCode_confirmed_booking render s b :
  NoDup (map qrCode (bookings render)) ->
  In b (bookings render) ->
  status b = confirmed ->
  scanResult (processQRCode render (qrCode b) s) =
    Some {| type := success;
            title := "تذكرة صالحة ✅";
            message := "تذكرة صحيحة!" ++ nl ++
                       "عدد التذاكر: " ++ numToString (ticketCount b) ++ nl ++
                       "السعر: " ++ (if isZero (totalPrice b) then "مجاني"
                                     else numToString (totalPrice b) ++ " د.ل") |}
  /\ bookings (processQRCode render (qrCode b) s) = bookings s.
Proof.
  intros Hnd Hin Hst. split; [|apply processQRCode_bookings].
  unfold Scanner.processQRCode.
  rewrite (findByQrCode_unique _ _ Hnd Hin), Hst. reflexivity.
Qed.

End Classification.

Section Screen.

Context {Num : Type}.
Variable isZero : Num -> bool.
Variable numToString : Num -> string.
Variable trim : string -> string.

Local Abbreviation processQRCode := (Scanner.processQRCode isZero numToString).
Local Abbreviation handleBarCodeScanned :=
  (Scanner.handleBarCodeScanned isZero numToString).
Local Abbreviation handleManualQRSubmit :=
  (Scanner.handleManualQRSubmit isZero numToString trim).
Local Abbreviation step := (Scanner.step isZero numToString trim).
Local Abbreviation run := (Scanner.run isZero numToString trim).

Implicit Types (render s : State Num) (c : Screen Num) (b : Booking Num).
Implicit Types (bs : list (Booking Num)) (e : Event) (es : list Event).

Lemma run_cons e es c :
  run (e :: es) c =
    (fst (run es (fst (step e c))),
     snd (step e c) :: snd (run es (fst (step e c)))).
Proof.
  simpl. destruct (step e c) as [c1 a]. simpl.
  destruct (run es c1) as [c2 l]. reflexivity.
Qed.

Lemma run_app es1 es2 c :
  fst (run (es1 ++ es2)%list c) = fst (run es2 (fst (run es1 c))).
Proof.
  revert c. induction es1 as [|e es1 IH]; intros c; [reflexivity|].
  cbn [app]. rewrite !run_cons. cbn [fst]. apply IH.
Qed.

Lemma processQRCode_scanned render data s :
  scanned (processQRCode render data s) = true.
Proof.
  unfold Scanner.processQRCode.
  destruct (findByQrCode data (bookings render)) as [b|]; [|reflexivity].
  destruct (Status_eqb (status b) used); [reflexivity|].
  destruct (Status_eqb (status b) cancelled); reflexivity.
Qed.

Lemma processQRCode_scanTimeoutRef render data s :
  scanTimeoutRef (processQRCode render data s) = scanTimeoutRef s.
Proof.
  unfold Scanner.processQRCode.
  destruct (findByQrCode data (bookings render)) as [b|]; [|reflexivity].
  destruct (Status_eqb (status b) used); [reflexivity|].
  destruct (Status_eqb (status b) cancelled); reflexivity.
Qed.

(** The code remembered is the code processed last. *)
Lemma processQRCode_lastScannedCode render data s :
  lastScannedCode (processQRCode render data s) = data.
Proof.
  unfold Scanner.processQRCode.
  destruct (findByQrCode data (bookings render)) as [b|]; [|reflexivity].
  destruct (Status_eqb (status b) used); [reflexivity|].
  destruct (Status_eqb (status b) cancelled); reflexivity.
Qed.

Lemma processQRCode_twice render data s :
  processQRCode render data (processQRCode render data s)
  = processQRCode render data s.
Proof.
  unfold Scanner.processQRCode.
  destruct (findByQrCode data (bookings render)) as [b|]; [|reflexivity].
  destruct (Status_eqb (status b) used); [reflexivity|].
  destruct (Status_eqb (status b) cancelled); reflexivity.
Qed.

Lemma handleBarCodeScanned_bookings render data s :
  bookings (handleBarCodeScanned render data s) = bookings s.
Proof.
  unfold Scanner.handleBarCodeScanned.
  destruct (scanned render || (data =? lastScannedCode s)); [reflexivity|].
  now rewrite processQRCode_bookings.
Qed.

(** Only [confirmEntry] writes to the booking list. *)
Lemma step_bookings e c :
  isConfirmEntry e = false ->
  bookings (current (fst (step e c))) = bookings (current c).
Proof.
  destruct e; simpl; intros H; try discriminate; try reflexivity.
  - apply handleBarCodeScanned_bookings.
  - unfold Scanner.handleManualQRSubmit.
    destruct (trim (manualQRCode (rendered c)) =? ""); simpl; [reflexivity|].
    apply processQRCode_bookings.
  - apply processQRCode_bookings.
  - unfold scanTimeoutFires. destruct (scanTimeoutRef (current c)); reflexivity.
Qed.

(** A render shows the list as it stood at some earlier moment. *)
Lemma step_rendered_bookings e c :
  bookings (rendered (fst (step e c))) = bookings (rendered c)
  \/ bookings (rendered (fst (step e c))) = bookings (current c).
Proof. destruct e; simpl; auto. Qed.

Lemma run_bookings es c :
  existsb isConfirmEntry es = false ->
  bookings (rendered c) = bookings (current c) ->
  bookings (current (fst (run es c))) = bookings (current c)
  /\ bookings (rendered (fst (run es c))) = bookings (current c).
Proof.
  revert c. induction es as [|e es IH]; intros c H Hr; [now split|].
  simpl in H. apply orb_false_iff in H. destruct H as [He Hes].
  rewrite run_cons. cbn [fst].
  pose proof (step_bookings e c He) as Hc.
  assert (Hr' : bookings (rendered (fst (step e c)))
                = bookings (current (fst (step e c)))).
  { rewrite Hc. destruct (step_rendered_bookings e c) as [E|E];
      rewrite E; [exact Hr|reflexivity]. }
  destruct (IH _ Hes Hr') as [H1 H2]. rewrite H1, H2, Hc. now split.
Qed.

(** C8. [processQRCode] leaves the booking list as it found it; running it
    again with the same code gives the same state, hence the same result;
    the result is a function of the code and the booking list the handler
    sees; and on a screen that shows the list as it stands, after any events
    other than [confirmEntry], re-renders included, the same code still
    gets the same result, from the handler installed and from the one a
    further render would install. *)
Theorem processQRCode_read_only_idempotent render data s :
  bookings (processQRCode render data s) = bookings s
  /\ processQRCode render data (processQRCode render data s)
     = processQRCode render data s
  /\ (forall render' s', bookings render' = bookings render ->
        scanResult (processQRCode render' data s')
        = scanResult (processQRCode render data s))
  /\ (forall es, existsb isConfirmEntry es = false ->
        bookings render = bookings s ->
        let c := fst (run es {| rendered := render;
                                current := processQRCode render data s |}) in
        scanResult (processQRCode (rendered c) data (current c))
        = scanResult (processQRCode render data s)
        /\ scanResult (processQRCode (current c) data (current c))
           = scanResult (processQRCode render data s)).
Proof.
  split; [apply processQRCode_bookings|].
  split; [apply processQRCode_twice|].
  split.
  - intros render' s' E. now apply processQRCode_scanResult_ext.
  - intros es Hes Hr c.
    destruct (run_bookings es {| rendered := render;
                                 current := processQRCode render data s |} Hes)
      as [H1 H2].
    { cbn [rendered current]. now rewrite processQRCode_bookings. }
    cbn [rendered current] in H1, H2. rewrite processQRCode_bookings in H1, H2.
    split; apply processQRCode_scanResult_ext; unfold c.
    + now rewrite H2, Hr.
    + now rewrite H1, Hr.
Qed.

(** ** Duplicate scans *)

Lemma handleBarCodeScanned_accepts render data s :
  scanned render = false -> data <> lastScannedCode s ->
  handleBarCodeScanned render data s
  = processQRCode render data (clearScanTimeout s).
Proof.
  intros Hs Hd. unfold Scanner.handleBarCodeScanned. rewrite Hs.
  destruct (String.eqb_spec data (lastScannedCode s)); [contradiction|reflexivity].
Qed.

Lemma handleBarCodeScanned_drops render data s :
  scanned render = true \/ data = lastScannedCode s ->
  handleBarCodeScanned render data s = s.
Proof.
  intros [Hs | ->]; unfold Scanner.handleBarCodeScanned.
  - now rewrite Hs.
  - rewrite String.eqb_refl. now rewrite orb_true_r.
Qed.

Lemma confirmEntry_flag_timer render s :
  scanned (fst (confirmEntry render s)) = scanned s
  /\ scanTimeoutRef (fst (confirmEntry render s)) = scanTimeoutRef s.
Proof.
  unfold confirmEntry.
  destruct (findByQrCode (lastScannedCode s) (bookings render)) as [b|];
    [|now split].
  destruct (Status_eqb (status b) confirmed); now split.
Qed.

(** With the flag set and no timer pending, only [resetScanner] can clear
    the flag; and a render made in the meantime shows it set. *)
Lemma step_keeps_scanned e c :
  isResetScanner e = false ->
  scanned (current c) = true -> scanTimeoutRef (current c) = false ->
  scanned (current (fst (step e c))) = true
  /\ scanTimeoutRef (current (fst (step e c))) = false
  /\ (scanned (rendered c) = true -> scanned (rendered (fst (step e c))) = true)
  /\ (e = Rerender -> scanned (rendered (fst (step e c))) = true).
Proof.
  intros He Hs Ht.
  destruct e; cbn [Scanner.step fst current rendered setCurrent justRendered] in *;
    try discriminate.
  - unfold Scanner.handleBarCodeScanned.
    destruct (scanned (rendered c) || (data =? lastScannedCode (current c))).
    + repeat split; auto; discriminate.
    + rewrite processQRCode_scanned, processQRCode_scanTimeoutRef.
      repeat split; auto; discriminate.
  - repeat split; auto; discriminate.
  - unfold Scanner.handleManualQRSubmit.
    destruct (trim (manualQRCode (rendered c)) =? ""); cbn [fst].
    + repeat split; auto; discriminate.
    + rewrite processQRCode_scanned, processQRCode_scanTimeoutRef.
      repeat split; auto; discriminate.
  - rewrite processQRCode_scanned, processQRCode_scanTimeoutRef.
    repeat split; auto; discriminate.
  - destruct (confirmEntry_flag_timer (rendered c) (current c)) as [-> ->].
    repeat split; auto; discriminate.
  - unfold scanTimeoutFires. rewrite Ht. repeat split; auto; discriminate.
  - repeat split; auto.
Qed.

Lemma run_keeps_scanned es c :
  existsb isResetScanner es = false ->
  scanned (current c) = true -> scanTimeoutRef (current c) = false ->
  scanned (current (fst (run es c))) = true
  /\ scanTimeoutRef (current (fst (run es c))) = false
  /\ (scanned (rendered c) = true -> scanned (rendered (fst (run es c))) = true).
Proof.
  revert c. induction es as [|e es IH]; intros c H Hs Ht; [now repeat split|].
  simpl in H. apply orb_false_iff in H. destruct H as [He Hes].
  rewrite run_cons. cbn [fst].
  destruct (step_keeps_scanned e c He Hs Ht) as [Hs' [Ht' [Hr' _]]].
  destruct (IH _ Hes Hs' Ht') as [H1 [H2 H3]].
  repeat split; auto.
Qed.

(** C9, as the code has it.  When a handler whose render shows the flag
    clear accepts a code, the flag is set, the code is remembered and its
    result stored.  From then on an event with that same code is dropped by
    every handler, the one that accepted it included, with no field of the
    state changed.  An event with another code that reaches that same
    handler, before any re-render, is classified.  Once the screen has
    rendered again, and as long as [resetScanner] has not run, the handler
    installed shows the flag set and drops every barcode event, whatever
    its code. *)
Theorem handleBarCodeScanned_duplicates render data s :
  scanned render = false -> data <> lastScannedCode s ->
  (scanned (handleBarCodeScanned render data s) = true
   /\ lastScannedCode (handleBarCodeScanned render data s) = data
   /\ scanResult (handleBarCodeScanned render data s)
      = scanResult (processQRCode render data s))
  /\ (forall render',
        handleBarCodeScanned render' data (handleBarCodeScanned render data s)
        = handleBarCodeScanned render data s)
  /\ (forall data', data' <> data ->
        scanResult
          (handleBarCodeScanned render data' (handleBarCodeScanned render data s))
        = scanResult (processQRCode render data' s)
        /\ lastScannedCode
             (handleBarCodeScanned render data'
                (handleBarCodeScanned render data s)) = data')
  /\ (forall es1 es2, existsb isResetScanner (es1 ++ es2)%list = false ->
        let c := fst (run (es1 ++ Rerender :: es2)%list
                        {| rendered := render;
                           current := handleBarCodeScanned render data s |}) in
        scanned (rendered c) = true
        /\ forall data',
             handleBarCodeScanned (rendered c) data' (current c) = current c).
Proof.
  intros Hs Hd.
  rewrite (handleBarCodeScanned_accepts render data s Hs Hd).
  set (s1 := processQRCode render data (clearScanTimeout s)).
  assert (Hs1 : scanned s1 = true) by apply processQRCode_scanned.
  assert (Hl1 : lastScannedCode s1 = data) by apply processQRCode_lastScannedCode.
  assert (Ht1 : scanTimeoutRef s1 = false).
  { unfold s1. now rewrite processQRCode_scanTimeoutRef. }
  split; [|split; [|split]].
  - split; [exact Hs1|]. split; [exact Hl1|].
    now apply processQRCode_scanResult_ext.
  - intros render'. apply handleBarCodeScanned_drops. right. now rewrite Hl1.
  - intros data' Hd'.
    rewrite (handleBarCodeScanned_accepts render data' s1 Hs)
      by (rewrite Hl1; exact Hd').
    split; [now apply processQRCode_scanResult_ext|].
    apply processQRCode_lastScannedCode.
  - intros es1 es2 Hes c.
    rewrite existsb_app in Hes. apply orb_false_iff in Hes.
    destruct Hes as [Hes1 Hes2].
    assert (Hc : scanned (rendered c) = true /\ scanned (current c) = true).
    { unfold c. rewrite run_app.
      set (c1 := fst (run es1 {| rendered := render; current := s1 |})).
      destruct (run_keeps_scanned es1 {| rendered := render; current := s1 |}
                  Hes1 Hs1 Ht1) as [H1 [H2 _]].
      fold c1 in H1, H2. rewrite run_cons. cbn [fst Scanner.step].
      destruct (run_keeps_scanned es2 (justRendered (current c1)) Hes2 H1 H2)
        as [H3 [_ H4]].
      split; [apply H4; exact H1|exact H3]. }
    destruct Hc as [Hr _]. split; [exact Hr|].
    intros data'. apply handleBarCodeScanned_drops. now left.
Qed.

(** ** Redemption *)

Lemma redeems_refl b : redeems b b.
Proof. now left. Qed.

Lemma redeems_trans b1 b2 b3 : redeems b1 b2 -> redeems b2 b3 -> redeems b1 b3.
Proof.
  intros [->|[H1 ->]] H23; [exact H23|].
  destruct H23 as [->|[H2 _]]; [right; now split|].
  simpl in H2. discriminate.
Qed.

Lemma redeems_id b b' : redeems b b' -> id b' = id b.
Proof. intros [->|[_ ->]]; reflexivity. Qed.

Lemma Forall2_redeems_refl bs : Forall2 redeems bs bs.
Proof. induction bs; constructor; [apply redeems_refl|assumption]. Qed.

Lemma Forall2_redeems_trans bs1 bs2 bs3 :
  Forall2 redeems bs1 bs2 -> Forall2 redeems bs2 bs3 -> Forall2 redeems bs1 bs3.
Proof.
  intros H12. revert bs3. induction H12 as [|b1 b2 l1 l2 Hb _ IH]; intros bs3 H23.
  - inversion H23; subst. constructor.
  - inversion H23 as [|b2' b3 l2' l3 Hb' Hl]; subst. constructor.
    + eapply redeems_trans; eassumption.
    + now apply IH.
Qed.

Lemma Forall2_redeems_ids bs bs' :
  Forall2 redeems bs bs' -> map id bs' = map id bs.
Proof.
  induction 1 as [|b b' l l' Hb _ IH]; [reflexivity|].
  simpl. now rewrite IH, (redeems_id _ _ Hb).
Qed.

Lemma Forall2_redeems_In bs bs' b :
  Forall2 redeems bs bs' -> In b bs -> exists b', In b' bs' /\ redeems b b'.
Proof.
  induction 1 as [|a a' l l' Ha _ IH]; intros Hin; [destruct Hin|].
  destruct Hin as [->|Hin].
  - exists a'. split; [now left|exact Ha].
  - destruct (IH Hin) as [b' [Hb' Hr]]. exists b'. split; [now right|exact Hr].
Qed.

Lemma Forall2_redeems_nth bs bs' i b :
  Forall2 redeems bs bs' -> nth_error bs i = Some b ->
  exists b', nth_error bs' i = Some b' /\ redeems b b'.
Proof.
  intros H. revert i. induction H as [|a a' l l' Ha _ IH]; intros i Hi.
  - destruct i; discriminate.
  - destruct i as [|i]; simpl in *.
    + injection Hi as <-. now exists a'.
    + now apply IH.
Qed.

Lemma NoDup_ids_inj bs b b0 :
  NoDup (map id bs) -> In b bs -> In b0 bs -> id b = id b0 -> b = b0.
Proof.
  induction bs as [|a bs IH]; intros Hnd Hb Hb0 E; [destruct Hb|].
  inversion Hnd as [|i l0 Hnotin Hnd']; subst.
  destruct Hb as [->|Hb], Hb0 as [->|Hb0]; [reflexivity| | |now apply IH].
  - exfalso. apply Hnotin. rewrite E. now apply in_map.
  - exfalso. apply Hnotin. rewrite <- E. now apply in_map.
Qed.

(** Marking the identifier of a booking a render shows [confirmed] redeems,
    in the list as it stands, that booking if it still is [confirmed], and
    changes nothing otherwise. *)
Lemma markTicketAsUsed_redeems shown bs b0 :
  NoDup (map id bs) -> Forall2 redeems shown bs ->
  In b0 shown -> status b0 = confirmed ->
  Forall2 redeems bs
    (map (fun b => if id b =? id b0 then setStatus used b else b) bs).
Proof.
  intros Hnd Hsh Hin Hst.
  destruct (Forall2_redeems_In _ _ _ Hsh Hin) as [b1 [Hin1 Hr1]].
  assert (Hall : forall b, In b bs ->
            redeems b (if id b =? id b0 then setStatus used b else b)).
  { intros b Hb. destruct (String.eqb_spec (id b) (id b0)) as [E|_]; [|now left].
    assert (b = b1).
    { apply (NoDup_ids_inj bs); auto. now rewrite E, (redeems_id _ _ Hr1). }
    subst b. destruct Hr1 as [->|[_ ->]].
    - right. now split.
    - left. reflexivity. }
  clear - Hall. induction bs as [|a bs IH]; simpl; constructor.
  - apply Hall. now left.
  - apply IH. intros b Hb. apply Hall. now right.
Qed.

Lemma confirm_step_redeems render s :
  NoDup (map id (bookings s)) ->
  Forall2 redeems (bookings render) (bookings s) ->
  Forall2 redeems (bookings s) (bookings (fst (confirmEntry render s))).
Proof.
  intros Hnd Hsh. unfold confirmEntry.
  destruct (findByQrCode (lastScannedCode s) (bookings render)) as [b0|] eqn:F;
    [|apply Forall2_redeems_refl].
  destruct (Status_eqb (status b0) confirmed) eqn:C; [|apply Forall2_redeems_refl].
  apply Status_eqb_eq in C. apply findByQrCode_some in F. destruct F as [Hin _].
  simpl. now apply (markTicketAsUsed_redeems (bookings render)).
Qed.

Lemma step_redeems e c :
  consistent c ->
  Forall2 redeems (bookings (current c)) (bookings (current (fst (step e c)))).
Proof.
  intros [Hnd Hsh]. destruct (isConfirmEntry e) eqn:He.
  - destruct e; try discriminate. cbn [Scanner.step fst current setCurrent].
    now apply confirm_step_redeems.
  - rewrite (step_bookings e c He). apply Forall2_redeems_refl.
Qed.

Lemma step_consistent e c : consistent c -> consistent (fst (step e c)).
Proof.
  intros Hc. pose proof (step_redeems e c Hc) as H. destruct Hc as [Hnd Hsh].
  split.
  - now rewrite (Forall2_redeems_ids _ _ H).
  - destruct (step_rendered_bookings e c) as [E|E]; rewrite E.
    + eapply Forall2_redeems_trans; eassumption.
    + exact H.
Qed.

Lemma run_redeems es c :
  consistent c ->
  Forall2 redeems (bookings (current c)) (bookings (current (fst (run es c)))).
Proof.
  revert c. induction es as [|e es IH]; intros c Hc;
    [apply Forall2_redeems_refl|].
  rewrite run_cons. cbn [fst].
  eapply Forall2_redeems_trans; [exact (step_redeems e c Hc)|].
  apply IH. now apply step_consistent.
Qed.

(** C3. Along any sequence of events of the screen, re-renders or not,
    over a list whose identifiers are pairwise distinct and which the render
    shows as it is or as it was before some redemptions, each booking is
    either left as it was or taken from [confirmed] to [used] with its
    other fields kept; so a booking that is [used] or [cancelled] stays
    exactly as it is. *)
Theorem status_only_confirmed_to_used es c :
  NoDup (map id (bookings (current c))) ->
  Forall2 redeems (bookings (rendered c)) (bookings (current c)) ->
  Forall2 redeems (bookings (current c)) (bookings (current (fst (run es c))))
  /\ (forall i b, nth_error (bookings (current c)) i = Some b ->
        status b = used \/ status b = cancelled ->
        nth_error (bookings (current (fst (run es c)))) i = Some b).
Proof.
  intros Hnd Hsh. pose proof (run_redeems es c (conj Hnd Hsh)) as H.
  split; [exact H|].
  intros i b Hi Hst.
  destruct (Forall2_redeems_nth _ _ i b H Hi) as [b' [Hb' [->|[Hc _]]]];
    [exact Hb'|].
  destruct Hst as [Hu|Hu]; rewrite Hc in Hu; discriminate.
Qed.

Lemma findByQrCode_map code (f : Booking Num -> Booking Num) bs :
  (forall b, qrCode (f b) = qrCode b) ->
  findByQrCode code (map f bs) = option_map f (findByQrCode code bs).
Proof.
  intros Hf. unfold findByQrCode.
  induction bs as [|a bs IH]; [reflexivity|].
  simpl. rewrite Hf. destruct (qrCode a =? code); [reflexivity|exact IH].
Qed.

Lemma confirmEntry_confirmed render s b :
  findByQrCode (lastScannedCode s) (bookings render) = Some b ->
  status b = confirmed ->
  confirmEntry render s =
    (setBookings
       (map (fun b' => if id b' =? id b then setStatus used b' else b')
            (bookings s)) s,
     Some entryConfirmed).
Proof.
  intros F C. unfold confirmEntry. rewrite F, C. reflexivity.
Qed.

Lemma confirmEntry_silent render s :
  (forall b, findByQrCode (lastScannedCode s) (bookings render) = Some b ->
             status b <> confirmed) ->
  confirmEntry render s = (s, None).
Proof.
  intros H. unfold confirmEntry.
  destruct (findByQrCode (lastScannedCode s) (bookings render)) as [b|];
    [|reflexivity].
  destruct (Status_eqb (status b) confirmed) eqn:C; [|reflexivity].
  apply Status_eqb_eq in C. now elim (H b eq_refl).
Qed.

(** After the mark, the booking found under a code is the one found before,
    [used] if it carries the marked identifier. *)
Lemma findByQrCode_after_mark code bs b b0 :
  findByQrCode code bs = Some b -> id b = id b0 ->
  findByQrCode code
    (map (fun b' => if id b' =? id b0 then setStatus used b' else b') bs)
  = Some (setStatus used b).
Proof.
  intros F E. rewrite findByQrCode_map.
  - rewrite F. simpl. rewrite E. now rewrite String.eqb_refl.
  - intros b'. now destruct (id b' =? id b0).
Qed.

(** C2, as the code has it.  [confirmEntry] looks the last scanned code up
    again, in the list its render shows.  If the booking found there is
    [confirmed], the call marks it [used] in the list as it stands, raises
    the alert confirming the entry and changes nothing but the booking
    list.  If there is no such booking, or its status is not [confirmed],
    the call returns the state it was given and raises no alert: there is
    no failure result for a lost race. *)
Theorem confirmEntry_commits_or_does_nothing render s :
  (forall b, findByQrCode (lastScannedCode s) (bookings render) = Some b ->
     status b = confirmed ->
     snd (confirmEntry render s) = Some entryConfirmed
     /\ (forall b', findByQrCode (lastScannedCode s) (bookings s) = Some b' ->
           id b' = id b ->
           findByQrCode (lastScannedCode s)
             (bookings (fst (confirmEntry render s)))
           = Some (setStatus used b'))
     /\ fst (confirmEntry render s)
        = setBookings (bookings (fst (confirmEntry render s))) s)
  /\ ((forall b, findByQrCode (lastScannedCode s) (bookings render) = Some b ->
                 status b <> confirmed) ->
      confirmEntry render s = (s, None)).
Proof.
  split; [|apply confirmEntry_silent].
  intros b F C. rewrite (confirmEntry_confirmed render s b F C). cbn [fst snd].
  split; [reflexivity|]. split; [|reflexivity].
  intros b' F' E. cbn [bookings setBookings].
  now apply findByQrCode_after_mark.
Qed.

Lemma setStatus_used_twice b :
  setStatus used (setStatus used b) = setStatus used b.
Proof. reflexivity. Qed.

(** Presses of one handler, with no render in between. *)
Lemma run_confirmEntry_same_render n c b :
  findByQrCode (lastScannedCode (current c)) (bookings (rendered c)) = Some b ->
  status b = confirmed ->
  snd (run (repeat ConfirmEntry n) c) = repeat (Some entryConfirmed) n
  /\ rendered (fst (run (repeat ConfirmEntry n) c)) = rendered c
  /\ lastScannedCode (current (fst (run (repeat ConfirmEntry n) c)))
     = lastScannedCode (current c)
  /\ forall b', findByQrCode (lastScannedCode (current c)) (bookings (current c))
                = Some b' ->
                id b' = id b ->
                findByQrCode (lastScannedCode (current c))
                  (bookings (current (fst (run (repeat ConfirmEntry (S n)) c))))
                = Some (setStatus used b').
Proof.
  revert c. induction n as [|n IH]; intros c F C.
  - split; [reflexivity|]. split; [reflexivity|]. split; [reflexivity|].
    intros b' F' E. cbn [repeat]. rewrite run_cons. cbn [fst Scanner.step run].
    rewrite (confirmEntry_confirmed _ _ b F C).
    cbn [fst current setCurrent bookings setBookings].
    now apply findByQrCode_after_mark.
  - set (c1 := fst (step ConfirmEntry c)).
    assert (E1 : c1 = setCurrent
                   (setBookings
                      (map (fun b' => if id b' =? id b then setStatus used b'
                                      else b') (bookings (current c)))
                      (current c)) c).
    { unfold c1. cbn [Scanner.step fst].
      now rewrite (confirmEntry_confirmed _ _ b F C). }
    assert (F1 : findByQrCode (lastScannedCode (current c1))
                   (bookings (rendered c1)) = Some b)
      by (rewrite E1; exact F).
    destruct (IH c1 F1 C) as [H1 [H2 [H3 H4]]].
    assert (Ha : snd (step ConfirmEntry c) = Some entryConfirmed).
    { cbn [Scanner.step snd]. now rewrite (confirmEntry_confirmed _ _ b F C). }
    split; [|split; [|split]].
    + cbn [repeat]. rewrite run_cons. cbn [snd]. fold c1. now rewrite Ha, H1.
    + cbn [repeat]. rewrite run_cons. cbn [fst]. fold c1. rewrite H2.
      now rewrite E1.
    + cbn [repeat]. rewrite run_cons. cbn [fst]. fold c1. rewrite H3.
      now rewrite E1.
    + intros b' F' E.
      change (repeat ConfirmEntry (S (S n)))
        with (ConfirmEntry :: repeat ConfirmEntry (S n)).
      rewrite run_cons. cbn [fst]. fold c1.
      assert (L1 : lastScannedCode (current c1) = lastScannedCode (current c))
        by now rewrite E1.
      rewrite <- L1.
      rewrite (H4 (setStatus used b')).
      * now rewrite setStatus_used_twice.
      * rewrite L1, E1. cbn [current setCurrent bookings setBookings].
        now apply findByQrCode_after_mark.
      * exact E.
Qed.

(** Presses of a handler whose render shows no [confirmed] booking under
    the remembered code. *)
Lemma run_confirmEntry_silent n c :
  (forall b, findByQrCode (lastScannedCode (current c)) (bookings (rendered c))
             = Some b -> status b <> confirmed) ->
  run (repeat ConfirmEntry n) c = (c, repeat None n).
Proof.
  intros H. induction n as [|n IH]; [reflexivity|].
  cbn [repeat]. rewrite run_cons. cbn [Scanner.step].
  rewrite (confirmEntry_silent _ _ H). cbn [fst snd].
  replace (setCurrent (current c) c) with c by now destruct c.
  now rewrite IH.
Qed.

(** A booking changes only in a call of [confirmEntry] that reports
    success, from [confirmed] to [used], and never again. *)
Lemma booking_changes_once c e es i b1 b2 :
  consistent c ->
  nth_error (bookings (current c)) i = Some b1 ->
  nth_error (bookings (current (fst (step e c)))) i = Some b2 ->
  b2 <> b1 ->
  e = ConfirmEntry
  /\ snd (step e c) = Some entryConfirmed
  /\ status b1 = confirmed
  /\ b2 = setStatus used b1
  /\ nth_error (bookings (current (fst (run es (fst (step e c)))))) i = Some b2.
Proof.
  intros Hc H1 H2 Hne.
  pose proof (step_redeems e c Hc) as Hr.
  destruct (Forall2_redeems_nth _ _ i b1 Hr H1) as [b2' [H2' Hb]].
  assert (b2' = b2) by congruence. subst b2'.
  destruct Hb as [->|[Hst ->]]; [contradiction|].
  assert (He : isConfirmEntry e = true).
  { destruct (isConfirmEntry e) eqn:He; [reflexivity|].
    rewrite (step_bookings e c He) in H2. congruence. }
  destruct e; try discriminate.
  split; [reflexivity|]. split.
  - cbn [Scanner.step snd fst current setCurrent] in *. unfold confirmEntry in *.
    destruct (findByQrCode (lastScannedCode (current c))
                (bookings (rendered c))) as [b0|]; [|cbn in H2; congruence].
    destruct (Status_eqb (status b0) confirmed); [reflexivity|].
    cbn in H2. congruence.
  - split; [exact Hst|]. split; [reflexivity|].
    pose proof (run_redeems es _ (step_consistent ConfirmEntry c Hc)) as Hr'.
    destruct (Forall2_redeems_nth _ _ i _ Hr' H2) as [b3 [H3 [->|[Hst' _]]]];
      [exact H3|].
    simpl in Hst'. discriminate.
Qed.

(** C1, as the code has it.  A booking changes only in a call of
    [confirmEntry] that reports success, from [confirmed] to [used], and
    never changes again: at most one call transitions it.  But every call
    whose render shows the booking [confirmed] reports success: [n] presses
    of one handler raise [n] alerts confirming the entry.  When the screen
    renders again after the first press, the first press alone reports
    success and the others raise nothing at all.  Either way the booking
    ends up [used]. *)
Theorem confirmEntry_attempts :
  (forall c e es i b1 b2,
     consistent c ->
     nth_error (bookings (current c)) i = Some b1 ->
     nth_error (bookings (current (fst (step e c)))) i = Some b2 ->
     b2 <> b1 ->
     e = ConfirmEntry
     /\ snd (step e c) = Some entryConfirmed
     /\ status b1 = confirmed
     /\ b2 = setStatus used b1
     /\ nth_error (bookings (current (fst (run es (fst (step e c)))))) i
        = Some b2)
  /\ (forall n s b,
        findByQrCode (lastScannedCode s) (bookings s) = Some b ->
        status b = confirmed ->
        snd (run (repeat ConfirmEntry (S n)) (justRendered s))
        = repeat (Some entryConfirmed) (S n)
        /\ findByQrCode (lastScannedCode s)
             (bookings (current (fst (run (repeat ConfirmEntry (S n))
                                        (justRendered s)))))
           = Some (setStatus used b))
  /\ (forall n s b,
        findByQrCode (lastScannedCode s) (bookings s) = Some b ->
        status b = confirmed ->
        snd (run (ConfirmEntry :: Rerender :: repeat ConfirmEntry n)
               (justRendered s))
        = Some entryConfirmed :: None :: repeat None n
        /\ findByQrCode (lastScannedCode s)
             (bookings (current (fst (run (ConfirmEntry :: Rerender
                                             :: repeat ConfirmEntry n)
                                        (justRendered s)))))
           = Some (setStatus used b)).
Proof.
  split; [exact booking_changes_once|]. split.
  - intros n s b F C.
    destruct (run_confirmEntry_same_render (S n) (justRendered s) b F C)
      as [H1 _].
    destruct (run_confirmEntry_same_render n (justRendered s) b F C)
      as [_ [_ [_ H4]]].
    split; [exact H1|]. now apply (H4 b).
  - intros n s b F C.
    rewrite !run_cons. cbn [Scanner.step fst snd justRendered rendered current].
    rewrite (confirmEntry_confirmed s s b F C).
    cbn [fst snd setCurrent rendered current].
    set (s1 := setBookings _ s).
    assert (F1 : findByQrCode (lastScannedCode s1) (bookings s1)
                 = Some (setStatus used b)).
    { unfold s1. cbn [lastScannedCode bookings setBookings].
      now apply findByQrCode_after_mark. }
    rewrite run_confirmEntry_silent.
    + cbn [fst snd current justRendered]. split; [reflexivity|exact F1].
    + cbn [current rendered justRendered]. intros b' F'.
      rewrite F1 in F'. injection F' as <-. simpl. discriminate.
Qed.

End Screen.

(** ** The properties at concrete screens *)

Ltac distinct_strings :=
  repeat (constructor; [simpl; intuition discriminate|]); constructor.

Ltac none_of_store :=
  let b := fresh "b" in
  intros b [<-|[<-|[<-|[]]]]; discriminate.

Lemma confirmEntry_attempts_witness :
  (let c := justRendered Demo.scannedValid in
   snd (Demo.step ConfirmEntry c) = Some entryConfirmed
   /\ nth_error
        (bookings (current (fst (Demo.run [ConfirmEntry; Rerender; ConfirmEntry]
                                   (fst (Demo.step ConfirmEntry c)))))) 0
      = Some (setStatus used Demo.b1))
  /\ (snd (Demo.run (repeat ConfirmEntry 3) (justRendered Demo.scannedValid))
      = [Some entryConfirmed; Some entryConfirmed; Some entryConfirmed]
      /\ findByQrCode "MI3AD-001"
           (bookings (current (fst (Demo.run (repeat ConfirmEntry 3)
                                      (justRendered Demo.scannedValid)))))
         = Some (setStatus used Demo.b1))
  /\ (snd (Demo.run (ConfirmEntry :: Rerender :: repeat ConfirmEntry 2)
             (justRendered Demo.scannedValid))
      = [Some entryConfirmed; None; None; None]
      /\ findByQrCode "MI3AD-001"
           (bookings (current (fst (Demo.run (ConfirmEntry :: Rerender
                                                :: repeat ConfirmEntry 2)
                                      (justRendered Demo.scannedValid)))))
         = Some (setStatus used Demo.b1)).
Proof.
  pose proof (confirmEntry_attempts Demo.isZero Demo.numToString Demo.trim)
    as [HA [HB HC]].
  split; [|split].
  - intros c.
    assert (Hc : consistent c).
    { split; [simpl; distinct_strings|apply Forall2_redeems_refl]. }
    destruct (HA c ConfirmEntry [ConfirmEntry; Rerender; ConfirmEntry] 0
                Demo.b1 (setStatus used Demo.b1) Hc eq_refl eq_refl
                ltac:(discriminate))
      as [_ [Ha [_ [_ Hn]]]].
    split; [exact Ha|exact Hn].
  - apply (HB 2 Demo.scannedValid Demo.b1); reflexivity.
  - apply (HC 2 Demo.scannedValid Demo.b1); reflexivity.
Defined.

(** Two presses of the confirm button of one render, on a valid ticket:
    both raise the alert confirming the entry, so two successes are reported
    for one booking.  And when the screen renders again between the two
    presses, the second press raises no alert at all. *)
Lemma confirmEntry_twice_succeeds_twice :
  snd (Demo.run [ConfirmEntry; ConfirmEntry] (justRendered Demo.scannedValid))
  = [Some entryConfirmed; Some entryConfirmed]
  /\ List.length
       (filter isEntryConfirmed
          (snd (Demo.run [ConfirmEntry; ConfirmEntry]
                  (justRendered Demo.scannedValid)))) <> 1
  /\ snd (Demo.run [ConfirmEntry; Rerender; ConfirmEntry]
            (justRendered Demo.scannedValid))
     = [Some entryConfirmed; None; None]
  /\ ~ (exists a : Alert,
          nth 2 (snd (Demo.run [ConfirmEntry; Rerender; ConfirmEntry]
                        (justRendered Demo.scannedValid))) None
          = Some a).
Proof.
  split; [reflexivity|]. split; [vm_compute; discriminate|].
  split; [reflexivity|]. intros [a Ha]. vm_compute in Ha. discriminate.
Qed.

Lemma confirmEntry_commits_or_does_nothing_witness :
  (snd (confirmEntry Demo.scannedValid Demo.scannedValid) = Some entryConfirmed
   /\ findByQrCode "MI3AD-001"
        (bookings (fst (confirmEntry Demo.scannedValid Demo.scannedValid)))
      = Some (setStatus used Demo.b1))
  /\ confirmEntry Demo.redeemedElsewhere Demo.redeemedElsewhere
     = (Demo.redeemedElsewhere, None).
Proof.
  split.
  - destruct (proj1 (confirmEntry_commits_or_does_nothing
                       Demo.scannedValid Demo.scannedValid)
                Demo.b1 eq_refl eq_refl) as [Ha [Hb _]].
    split; [exact Ha|exact (Hb Demo.b1 eq_refl eq_refl)].
  - apply (proj2 (confirmEntry_commits_or_does_nothing
                    Demo.redeemedElsewhere Demo.redeemedElsewhere)).
    intros b E. vm_compute in E. injection E as <-. discriminate.
Defined.

(** [confirmEntry] on a booking that is no longer [confirmed]: the state is
    returned as it was and no alert is raised, so no failure is reported.
    And the status tested is the one the handler's render shows: from a
    render that still shows the booking [confirmed], the call reports
    success although the booking is [used] by then. *)
Lemma confirmEntry_lost_race_reports_nothing :
  findByQrCode (lastScannedCode Demo.redeemedElsewhere)
    (bookings Demo.redeemedElsewhere) = Some (setStatus used Demo.b1)
  /\ confirmEntry Demo.redeemedElsewhere Demo.redeemedElsewhere
     = (Demo.redeemedElsewhere, None)
  /\ ~ (exists a : Alert,
          snd (confirmEntry Demo.redeemedElsewhere Demo.redeemedElsewhere)
          = Some a)
  /\ confirmEntry Demo.scannedValid Demo.redeemedElsewhere
     = (Demo.redeemedElsewhere, Some entryConfirmed).
Proof.
  split; [reflexivity|]. split; [reflexivity|]. split; [|reflexivity].
  intros [a Ha]. vm_compute in Ha. discriminate.
Qed.

Lemma status_only_confirmed_to_used_witness :
  let es := [BarCodeScanned "MI3AD-001"; ConfirmEntry; ConfirmEntry; Rerender;
             ResetScanner; Rerender; BarCodeScanned "X"; Rerender;
             ConfirmEntry; ConfirmEntry] in
  Forall2 redeems Demo.store
    (bookings (current (fst (Demo.run es (justRendered Demo.mounted)))))
  /\ nth_error
       (bookings (current (fst (Demo.run es (justRendered Demo.mounted))))) 1
     = Some Demo.b2
  /\ nth_error
       (bookings (current (fst (Demo.run es (justRendered Demo.mounted))))) 2
     = Some Demo.b3.
Proof.
  intros es.
  assert (Hnd : NoDup (map id (bookings (current (justRendered Demo.mounted)))))
    by (simpl; distinct_strings).
  destruct (status_only_confirmed_to_used
              Demo.isZero Demo.numToString Demo.trim es
              (justRendered Demo.mounted) Hnd (Forall2_redeems_refl _))
    as [H1 H2].
  split; [exact H1|]. split.
  - apply (H2 1 Demo.b2 eq_refl). now right.
  - apply (H2 2 Demo.b3 eq_refl). now left.
Defined.

Lemma processQRCode_unknown_code_witness :
  scanResult (Demo.processQRCode Demo.mounted "DOES-NOT-EXIST" Demo.mounted) =
    Some {| type := error;
            title := "تذكرة غير صالحة ❌";
            message := "رمز QR غير صحيح أو التذكرة غير موجودة في النظام" |}
  /\ bookings (Demo.processQRCode Demo.mounted "DOES-NOT-EXIST" Demo.mounted)
     = Demo.store.
Proof.
  apply (processQRCode_unknown_code
           Demo.isZero Demo.numToString Demo.mounted "DOES-NOT-EXIST"
           Demo.mounted).
  simpl. none_of_store.
Defined.

(** The lookup compares strings as they are: the code of [b1] in lower case
    is an unknown code. *)
Example processQRCode_lower_case_is_unknown :
  scanResult (Demo.processQRCode Demo.mounted "mi3ad-001" Demo.mounted)
  = scanResult (Demo.processQRCode Demo.mounted "DOES-NOT-EXIST" Demo.mounted).
Proof. reflexivity. Qed.

Lemma processQRCode_used_booking_witness :
  scanResult (Demo.processQRCode Demo.mounted "MI3AD-003" Demo.mounted) =
    Some {| type := warning;
            title := "تذكرة مستخدمة ⚠️";
            message := "تم استخدام هذه التذكرة مسبقاً" ++ nl ++
                       "عدد التذاكر: 4" ++ nl ++ "السعر: 120 د.ل" |}
  /\ bookings (Demo.processQRCode Demo.mounted "MI3AD-003" Demo.mounted)
     = Demo.store.
Proof.
  apply (processQRCode_used_booking
           Demo.isZero Demo.numToString Demo.mounted Demo.mounted Demo.b3).
  - simpl. distinct_strings.
  - simpl. tauto.
  - reflexivity.
Defined.

Lemma processQRCode_cancelled_booking_witness :
  scanResult (Demo.processQRCode Demo.mounted "X" Demo.mounted) =
    Some {| type := error;
            title := "تذكرة ملغاة ❌";
            message := "هذه التذكرة تم إلغاؤها ولا يمكن استخدامها" |}
  /\ bookings (Demo.processQRCode Demo.mounted "X" Demo.mounted) = Demo.store.
Proof.
  apply (processQRCode_cancelled_booking
           Demo.isZero Demo.numToString Demo.mounted Demo.mounted Demo.b2).
  - simpl. distinct_strings.
  - simpl. tauto.
  - reflexivity.
Defined.

Lemma processQRCode_confirmed_booking_witness :
  scanResult (Demo.processQRCode Demo.mounted "MI3AD-001" Demo.mounted) =
    Some {| type := success;
            title := "تذكرة صالحة ✅";
            message := "تذكرة صحيحة!" ++ nl ++
                       "عدد التذاكر: 2" ++ nl ++ "السعر: مجاني" |}
  /\ bookings (Demo.processQRCode Demo.mounted "MI3AD-001" Demo.mounted)
     = Demo.store.
Proof.
  apply (processQRCode_confirmed_booking
           Demo.isZero Demo.numToString Demo.mounted Demo.mounted Demo.b1).
  - simpl. distinct_strings.
  - simpl. tauto.
  - reflexivity.
Defined.

Lemma processQRCode_read_only_idempotent_witness :
  let r := scanResult (Demo.processQRCode Demo.mounted "MI3AD-001" Demo.mounted) in
  scanResult (Demo.processQRCode (resetScanner Demo.scannedValid) "MI3AD-001"
                (resetScanner Demo.scannedValid)) = r
  /\ (let c := fst (Demo.run [ResetScanner; Rerender; BarCodeScanned "X";
                              TimeoutFires]
                      {| rendered := Demo.mounted;
                         current := Demo.processQRCode Demo.mounted "MI3AD-001"
                                      Demo.mounted |}) in
      scanResult (Demo.processQRCode (rendered c) "MI3AD-001" (current c)) = r
      /\ scanResult (Demo.processQRCode (current c) "MI3AD-001" (current c)) = r).
Proof.
  intros r.
  destruct (processQRCode_read_only_idempotent
              Demo.isZero Demo.numToString Demo.trim Demo.mounted "MI3AD-001"
              Demo.mounted)
    as [_ [_ [H3 H4]]].
  split.
  - apply H3. reflexivity.
  - apply H4; reflexivity.
Defined.

Lemma handleBarCodeScanned_duplicates_witness :
  (scanned Demo.scannedValid = true
   /\ lastScannedCode Demo.scannedValid = "MI3AD-001")
  /\ Demo.handleBarCodeScanned Demo.mounted "MI3AD-001" Demo.scannedValid
     = Demo.scannedValid
  /\ lastScannedCode
       (Demo.handleBarCodeScanned Demo.mounted "X" Demo.scannedValid) = "X"
  /\ (let c := fst (Demo.run [BarCodeScanned "X"; Rerender; ConfirmEntry;
                              TimeoutFires]
                      {| rendered := Demo.mounted;
                         current := Demo.scannedValid |}) in
      scanned (rendered c) = true
      /\ Demo.handleBarCodeScanned (rendered c) "MI3AD-003" (current c)
         = current c).
Proof.
  destruct (handleBarCodeScanned_duplicates
              Demo.isZero Demo.numToString Demo.trim
              Demo.mounted "MI3AD-001" Demo.mounted eq_refl
              ltac:(simpl; discriminate))
    as [[H1 [H2 _]] [H3 [H4 H5]]].
  split; [split; [exact H1|exact H2]|].
  split; [exact (H3 Demo.mounted)|].
  split; [exact (proj2 (H4 "X" ltac:(discriminate)))|].
  intros c.
  destruct (H5 [BarCodeScanned "X"] [ConfirmEntry; TimeoutFires] eq_refl)
    as [H6 H7].
  split; [exact H6|exact (H7 "MI3AD-003")].
Defined.

(** A second barcode event, with another code, on the handler that has just
    accepted a first: the flag is set in the state, but the handler reads
    the flag of its render, which is clear, and classifies the second
    code. *)
Lemma second_code_on_same_handler_is_classified :
  scanned Demo.scannedValid = true
  /\ scanResult (Demo.handleBarCodeScanned Demo.mounted "X" Demo.scannedValid)
     = Some {| type := error;
               title := "تذكرة ملغاة ❌";
               message := "هذه التذكرة تم إلغاؤها ولا يمكن استخدامها" |}
  /\ lastScannedCode
       (Demo.handleBarCodeScanned Demo.mounted "X" Demo.scannedValid) = "X"
  /\ Demo.handleBarCodeScanned Demo.mounted "X" Demo.scannedValid
     <> Demo.scannedValid.
Proof.
  split; [reflexivity|]. split; [reflexivity|]. split; [reflexivity|].
  intros E. apply (f_equal lastScannedCode) in E. vm_compute in E. discriminate.
Qed.

End ScannerProperties.

(** * Properties of the password helpers *)
Module SecurityProperties.
Import SecurityUtils.

Section RoundTrip.

Variable subtleDigest : list ascii -> option (list ascii).
Variable digestStringAsync : string -> option string.

Local Abbreviation hashPassword :=
  (SecurityUtils.hashPassword subtleDigest digestStringAsync).
Local Abbreviation verifyPassword :=
  (SecurityUtils.verifyPassword subtleDigest digestStringAsync).

Lemma orElse_given salt fresh : salt <> "" -> orElse (Some salt) fresh = salt.
Proof.
  intros H. unfold orElse.
  destruct (String.eqb_spec salt ""); [contradiction|reflexivity].
Qed.

(** A salt that is not empty is taken as given, and the hash is then a
    function of password and salt: verification accepts, whatever
    [Math.random()] returns in the meantime. *)
Lemma verifyPassword_accepts_given_salt rt draw draw' password hash salt :
  hashPassword rt draw password None = Some (hash, salt) ->
  salt <> "" ->
  verifyPassword rt draw' password hash salt = true.
Proof.
  intros Hh Hs. unfold SecurityUtils.verifyPassword.
  unfold SecurityUtils.hashPassword in *.
  destruct (isWeb rt); [|destruct (hasCrypto rt)].
  - cbn [orElse] in Hh. rewrite (orElse_given _ _ Hs).
    destruct (subtleDigest (list_ascii_of_string
                (password ++ jsSubstring 2 18 (base36 draw)))) as [buf|] eqn:D;
      [|discriminate].
    injection Hh as <- <-. rewrite D. apply String.eqb_refl.
  - destruct (String.eqb_spec salt ""); [contradiction|].
    destruct (option_map (jsSubstring 0 16) (digestStringAsync (base10 draw)))
      as [fresh|]; [|discriminate].
    destruct (digestStringAsync (password ++ fresh)) as [h|] eqn:D;
      [|discriminate].
    injection Hh as <- <-. rewrite D. apply String.eqb_refl.
  - cbn [orElse] in Hh. rewrite (orElse_given _ _ Hs).
    destruct (btoa (password ++ jsSubstring 2 18 (base36 draw))) as [h|] eqn:D;
      [|discriminate].
    injection Hh as <- <-. rewrite D. apply String.eqb_refl.
Qed.

(** C10, at the input where it fails.  Without expo-crypto, when
    [Math.random()] returns [0] the salt [hashPassword] generates is the
    empty string; [verifyPassword] hands it back, [salt || ...] takes it for
    a missing salt and draws a new one, and the hash of the very same
    password no longer matches. *)
Theorem verifyPassword_rejects_own_hash_after_empty_salt :
  hashPassword Demo.noCrypto Demo.drawZero "pw" None = Some ("cHc=", "")
  /\ hashPassword Demo.noCrypto Demo.drawHalf "pw" (Some "") = Some ("cHdp", "i")
  /\ verifyPassword Demo.noCrypto Demo.drawHalf "pw" "cHc=" "" = false.
Proof. repeat split. Qed.

End RoundTrip.

Lemma verifyPassword_accepts_given_salt_example :
  SecurityUtils.verifyPassword (fun _ => None) (fun _ => None)
    Demo.noCrypto Demo.drawZero "pw" "cHdp" "i" = true.
Proof.
  apply (verifyPassword_accepts_given_salt (fun _ => None) (fun _ => None)
           Demo.noCrypto Demo.drawHalf Demo.drawZero "pw" "cHdp" "i").
  - reflexivity.
  - discriminate.
Defined.

End SecurityProperties.

(** * Scenarios on the scanner screen *)
Module ScannerScenarios.
Import Scanner.

Section Scenarios.

Context {Num : Type}.
Variable isZero : Num -> bool.
Variable numToString : Num -> string.

Local Abbreviation processQRCode := (Scanner.processQRCode isZero numToString).
Local Abbreviation handleBarCodeScanned :=
  (Scanner.handleBarCodeScanned isZero numToString).

Implicit Types (render s : State Num) (b : Booking Num) (r : ScanResult).

(** What [processQRCode] stores, read off the first booking with the code
    in the list its render shows. *)
Lemma processQRCode_cases render data s :
  match findByQrCode data (bookings render) with
  | None =>
      exists r,
        scanResult (processQRCode render data s) = Some r /\ type r = error
  | Some b =>
      exists r tail,
        scanResult (processQRCode render data s) = Some r
        /\ tail = nl ++ "عدد التذاكر: " ++ numToString (ticketCount b) ++ nl ++
                  "السعر: " ++ Scanner.priceText isZero numToString (totalPrice b)
        /\ match status b with
           | confirmed =>
               type r = success /\ message r = "تذكرة صحيحة!" ++ tail
           | used =>
               type r = warning
               /\ message r = "تم استخدام هذه التذكرة مسبقاً" ++ tail
           | cancelled => type r = error
           end
  end.
Proof.
  unfold Scanner.processQRCode.
  destruct (findByQrCode data (bookings render)) as [b|].
  - destruct (status b); cbn [Status_eqb]; eexists; eexists;
      (split; [reflexivity|]); (split; [reflexivity|]);
      cbn [type message]; try split; reflexivity.
  - eexists. split; reflexivity.
Qed.

(** X1. The result is a success exactly when the first booking carrying the
    code, in the list the handler sees, is [confirmed], a warning exactly
    when it is [used], and an error exactly when it is [cancelled] or no
    booking carries the code: a result is always stored, and the three
    cases exclude one another. *)
Theorem processQRCode_result_type render data s :
  exists r,
    scanResult (processQRCode render data s) = Some r
    /\ (type r = success <->
        exists b, findByQrCode data (bookings render) = Some b
                  /\ status b = confirmed)
    /\ (type r = warning <->
        exists b, findByQrCode data (bookings render) = Some b
                  /\ status b = used)
    /\ (type r = error <->
        findByQrCode data (bookings render) = None
        \/ exists b, findByQrCode data (bookings render) = Some b
                     /\ status b = cancelled).
Proof.
  pose proof (processQRCode_cases render data s) as H.
  destruct (findByQrCode data (bookings render)) as [b|] eqn:F.
  - destruct H as [r [tail [Hr [_ Hst]]]]. exists r. split; [exact Hr|].
    assert (Ht : type r = match status b with
                          | confirmed => success
                          | cancelled => error
                          | used => warning
                          end).
    { destruct (status b); [apply Hst|exact Hst|apply Hst]. }
    rewrite Ht. clear Hst Hr Ht.
    destruct (status b) eqn:S; repeat split; intros H;
      try discriminate; try reflexivity;
      try (now exists b); try (right; now exists b);
      try (destruct H as [b' [E S']]; injection E as <-; congruence);
      (destruct H as [H|[b' [E S']]];
       [discriminate|injection E as <-; congruence]).
  - destruct H as [r [Hr Ht]]. exists r. split; [exact Hr|]. rewrite Ht.
    repeat split; intros H;
      try discriminate; try reflexivity; try (now left);
      (destruct H as [b' [E _]]; discriminate).
Qed.

(** X2. A ticket found valid can be confirmed, and is then found used: on a
    screen that shows the list as it stands, after a success for [data],
    [confirmEntry] from a render showing that same list raises the alert
    confirming the entry, and a render showing the list after it classifies
    [data] as a warning, whose message shows the same ticket count and
    price as the success message did. *)
Theorem valid_confirmed_then_used render data s r :
  bookings render = bookings s ->
  scanResult (processQRCode render data s) = Some r ->
  type r = success ->
  forall render2, bookings render2 = bookings render ->
  snd (confirmEntry render2 (processQRCode render data s)) = Some entryConfirmed
  /\ forall render3 s3,
       bookings render3
       = bookings (fst (confirmEntry render2 (processQRCode render data s))) ->
       exists r' tail,
         scanResult (processQRCode render3 data s3) = Some r'
         /\ type r' = warning
         /\ message r = "تذكرة صحيحة!" ++ tail
         /\ message r' = "تم استخدام هذه التذكرة مسبقاً" ++ tail.
Proof.
  intros Hfresh Hr Ht render2 H2.
  pose proof (processQRCode_cases render data s) as H.
  destruct (findByQrCode data (bookings render)) as [b|] eqn:F.
  2:{ destruct H as [r0 [Hr0 Ht0]]. congruence. }
  destruct H as [r0 [tail [Hr0 [Htail Hst]]]].
  assert (r0 = r) by congruence. subst r0.
  destruct (status b) eqn:S; [|rewrite Ht in Hst; discriminate
                              |destruct Hst as [Hst _]; congruence].
  destruct Hst as [_ Hmsg].
  set (s1 := processQRCode render data s).
  assert (L1 : lastScannedCode s1 = data)
    by apply ScannerProperties.processQRCode_lastScannedCode.
  assert (B1 : bookings s1 = bookings s)
    by apply ScannerProperties.processQRCode_bookings.
  assert (F1 : findByQrCode (lastScannedCode s1) (bookings render2) = Some b)
    by (rewrite L1, H2; exact F).
  rewrite (ScannerProperties.confirmEntry_confirmed render2 s1 b F1 S).
  cbn [fst snd]. split; [reflexivity|].
  intros render3 s3 H3.
  pose proof (processQRCode_cases render3 data s3) as H4.
  rewrite H3 in H4. cbn [bookings setBookings] in H4.
  rewrite B1, <- Hfresh in H4.
  rewrite (ScannerProperties.findByQrCode_after_mark data (bookings render) b b
             F eq_refl) in H4.
  destruct H4 as [r' [tail' [Hr' [Htail' Hst']]]].
  cbn [status setStatus ticketCount totalPrice] in Hst', Htail'.
  destruct Hst' as [Ht' Hmsg'].
  exists r', tail.
  split; [exact Hr'|]. split; [exact Ht'|]. split; [exact Hmsg|].
  rewrite Hmsg'. now rewrite Htail', Htail.
Qed.

(** X3. [resetScanner] forgets the remembered code: a barcode event with
    any non-empty code, the one scanned just before included, that reaches a
    handler whose render shows the flag clear is classified again right
    away.  A barcode event with the empty code is dropped after a reset by
    every handler, because the forgotten code is the empty string. *)
Theorem handleBarCodeScanned_after_reset render data s :
  (scanned render = false -> data <> "" ->
     scanResult (handleBarCodeScanned render data (resetScanner s))
     = scanResult (processQRCode render data s)
     /\ scanned (handleBarCodeScanned render data (resetScanner s)) = true
     /\ lastScannedCode (handleBarCodeScanned render data (resetScanner s))
        = data)
  /\ handleBarCodeScanned render "" (resetScanner s) = resetScanner s.
Proof.
  split.
  - intros Hs Hd.
    rewrite ScannerProperties.handleBarCodeScanned_accepts;
      [|exact Hs|exact Hd].
    split; [now apply ScannerProperties.processQRCode_scanResult_ext|].
    split; [apply ScannerProperties.processQRCode_scanned|].
    apply ScannerProperties.processQRCode_lastScannedCode.
  - apply ScannerProperties.handleBarCodeScanned_drops. now right.
Qed.

(** X4. Leaving a ticket unconfirmed costs nothing: after [resetScanner]
    the booking list is as before and, when no booking the handler sees
    carries the empty code, [confirmEntry] does nothing.  When the first
    booking carrying the empty code is [confirmed], [confirmEntry] after a
    reset redeems it, although no result is on display. *)
Theorem confirmEntry_after_reset render s :
  bookings (resetScanner s) = bookings s
  /\ scanResult (resetScanner s) = None
  /\ ((forall b, In b (bookings render) -> qrCode b <> "") ->
      confirmEntry render (resetScanner s) = (resetScanner s, None))
  /\ (forall b, findByQrCode "" (bookings render) = Some b ->
      status b = confirmed ->
      snd (confirmEntry render (resetScanner s)) = Some entryConfirmed
      /\ (bookings render = bookings s ->
          findByQrCode "" (bookings (fst (confirmEntry render (resetScanner s))))
          = Some (setStatus used b))).
Proof.
  split; [reflexivity|]. split; [reflexivity|]. split.
  - intros Hne. apply ScannerProperties.confirmEntry_silent.
    cbn [lastScannedCode resetScanner setScanTimeoutRef clearScanTimeout
         setManualQRCode setLastScannedCode setScanResult setScanned].
    intros b F. apply ScannerProperties.findByQrCode_some in F.
    destruct F as [Hin Hq]. now elim (Hne b Hin).
  - intros b F C.
    assert (F' : findByQrCode (lastScannedCode (resetScanner s))
                   (bookings render) = Some b) by exact F.
    rewrite (ScannerProperties.confirmEntry_confirmed _ _ b F' C). cbn [fst snd].
    split; [reflexivity|]. intros Hfresh.
    cbn [bookings setBookings resetScanner setScanTimeoutRef clearScanTimeout
         setManualQRCode setLastScannedCode setScanResult setScanned].
    rewrite <- Hfresh.
    now apply ScannerProperties.findByQrCode_after_mark.
Qed.

End Scenarios.
End ScannerScenarios.

(** * Round trips of the security helpers *)
Module SecurityRoundTrips.
Import SecurityUtils.

Ltac nat_divmod := zify; Z.div_mod_to_equations; lia.

(** ** Text and octets *)

Lemma textOf_bytesOf text : textOf (bytesOf text) = text.
Proof.
  unfold textOf, bytesOf. rewrite map_map.
  rewrite (map_ext _ (fun a => a)) by apply ascii_nat_embedding.
  rewrite map_id. apply string_of_list_ascii_of_string.
Qed.

Lemma bytesOf_textOf l : byte_sized l -> bytesOf (textOf l) = l.
Proof.
  intros H. unfold textOf, bytesOf.
  rewrite list_ascii_of_string_of_list_ascii, map_map.
  induction H as [|x l Hx _ IH]; [reflexivity|].
  simpl. now rewrite IH, nat_ascii_embedding.
Qed.

Lemma bytesOf_byte_sized text : byte_sized (bytesOf text).
Proof.
  unfold bytesOf, byte_sized. apply Forall_forall. intros x Hx.
  apply in_map_iff in Hx. destruct Hx as [a [<- _]]. apply nat_ascii_bounded.
Qed.

Lemma binaryString_byte_sized u : byte_sized u -> byte_sized (binaryString u).
Proof.
  induction 1 as [|x u Hx _ IH]; [constructor|].
  cbn [binaryString]. destruct (Nat.ltb_spec x 128).
  - now constructor.
  - constructor; [nat_divmod|]. constructor; [nat_divmod|exact IH].
Qed.

(** The code units of a binary string are read back from its text. *)
Lemma latin1_binaryString u : byte_sized u -> latin1 (binaryString u) = Some u.
Proof.
  induction 1 as [|x u Hx _ IH]; [reflexivity|].
  cbn [binaryString]. destruct (Nat.ltb_spec x 128) as [Hlt|Hge].
  - cbn [latin1]. apply Nat.ltb_lt in Hlt. now rewrite Hlt, IH.
  - assert (Hq : (x - 128) / 64 = 0 \/ (x - 128) / 64 = 1) by nat_divmod.
    assert (Hc : 128 <= 128 + x mod 64 < 192) by nat_divmod.
    assert (Hv : 128 + x mod 64 + (194 + (x - 128) / 64 - 194) * 64 = x)
      by nat_divmod.
    cbn [latin1]. rewrite Hv.
    replace (128 <=? 128 + x mod 64)%nat with true
      by (symmetry; apply Nat.leb_le; lia).
    replace (128 + x mod 64 <? 192)%nat with true
      by (symmetry; apply Nat.ltb_lt; lia).
    rewrite IH.
    destruct Hq as [-> | ->]; reflexivity.
Qed.

Lemma latin1_cons b rest :
  latin1 (b :: rest) =
    if (b <? 128)%nat then option_map (cons b) (latin1 rest)
    else
      match rest with
      | c :: rest' =>
          if ((b =? 194) || (b =? 195))%nat && (128 <=? c)%nat && (c <? 192)%nat
          then option_map (cons (c + (b - 194) * 64)%nat) (latin1 rest')
          else None
      | [] => None
      end.
Proof. reflexivity. Qed.

Lemma latin1_inv l :
  (forall u, latin1 l = Some u -> binaryString u = l /\ byte_sized u)
  /\ (forall a u, latin1 (a :: l) = Some u ->
        binaryString u = a :: l /\ byte_sized u).
Proof.
  induction l as [|c l [IH1 IH2]].
  - split.
    + intros u H. injection H as <-. split; [reflexivity|constructor].
    + intros a u H. cbn [latin1 option_map] in H.
      destruct (a <? 128)%nat eqn:Hlt; [|discriminate].
      injection H as <-. cbn [binaryString]. rewrite Hlt.
      apply Nat.ltb_lt in Hlt.
      split; [reflexivity|]. constructor; [lia|constructor].
  - split; [exact (IH2 c)|].
    intros a u H. rewrite latin1_cons in H.
    destruct (a <? 128)%nat eqn:Hlt.
    + destruct (latin1 (c :: l)) as [u'|] eqn:E; [|discriminate].
      cbn [option_map] in H.
      injection H as <-. destruct (IH2 c u' E) as [Hb Hs].
      cbn [binaryString]. rewrite Hlt. apply Nat.ltb_lt in Hlt.
      split; [now rewrite Hb|]. constructor; [lia|exact Hs].
    + destruct (((a =? 194) || (a =? 195)) && (128 <=? c) && (c <? 192))%nat
        eqn:Hcond; [|discriminate].
      apply andb_true_iff in Hcond. destruct Hcond as [Hcond Hc2].
      apply andb_true_iff in Hcond. destruct Hcond as [Ha Hc1].
      apply Nat.leb_le in Hc1. apply Nat.ltb_lt in Hc2.
      apply orb_true_iff in Ha.
      destruct (latin1 l) as [u'|] eqn:E; [|discriminate].
      cbn [option_map] in H.
      injection H as <-. destruct (IH1 u' eq_refl) as [Hb Hs].
      assert (Ha' : a = 194 \/ a = 195).
      { destruct Ha as [Ha|Ha]; apply Nat.eqb_eq in Ha; auto. }
      assert (Hu : 128 <= c + (a - 194) * 64 < 256) by lia.
      cbn [binaryString].
      destruct (Nat.ltb_spec (c + (a - 194) * 64) 128) as [Hlt'|_]; [lia|].
      split; [|constructor; [lia|exact Hs]].
      rewrite Hb. f_equal; [|f_equal]; nat_divmod.
Qed.

Lemma binaryString_latin1 l u :
  latin1 l = Some u -> binaryString u = l /\ byte_sized u.
Proof. apply (proj1 (latin1_inv l)). Qed.

(** ** Base64 *)

Lemma list_ind3 (P : list nat -> Prop) :
  P [] -> (forall a, P [a]) -> (forall a b, P [a; b]) ->
  (forall a b c rest, P rest -> P (a :: b :: c :: rest)) ->
  forall l, P l.
Proof.
  intros H0 H1 H2 H3 l.
  assert (H : P l /\ (forall a, P (a :: l)) /\ (forall a b, P (a :: b :: l))).
  { induction l as [|x l [IHa [IHb IHc]]].
    - repeat split; auto.
    - split; [apply IHb|]. split; [intros a; apply IHc|].
      intros a b. now apply H3. }
  apply H.
Qed.

Lemma base64Digit_sound n :
  n < 64 ->
  base64Value (base64Digit n) = Some n
  /\ isAsciiWhitespace (base64Digit n) = false
  /\ isPad (base64Digit n) = false.
Proof.
  intros H. do 64 (destruct n as [|n]; [repeat split; reflexivity|]). lia.
Qed.

Local Abbreviation plain :=
  (Forall (fun c => isAsciiWhitespace c = false /\ isPad c = false)).

Local Abbreviation padding pad :=
  (pad = [] \/ pad = ["="%char] \/ pad = ["="%char; "="%char]).

Lemma dropPadding_app digits pad :
  plain digits -> padding pad -> dropPadding (digits ++ pad)%list = digits.
Proof.
  intros Hd Hp. induction Hd as [|c digits [_ Hc] _ IH].
  - destruct Hp as [->|[->| ->]]; reflexivity.
  - cbn [app dropPadding]. rewrite Hc. cbn [andb]. now rewrite IH.
Qed.

Lemma filter_whitespace_app digits pad :
  plain digits -> padding pad ->
  filter (fun c => negb (isAsciiWhitespace c)) (digits ++ pad)%list
  = (digits ++ pad)%list.
Proof.
  intros Hd Hp. rewrite filter_app. f_equal.
  - induction Hd as [|c digits [Hc _] _ IH]; [reflexivity|].
    cbn [filter]. rewrite Hc. cbn [negb]. now rewrite IH.
  - destruct Hp as [->|[->| ->]]; reflexivity.
Qed.

(** What [base64] writes: digits, then padding up to a multiple of four,
    and the digits decode to the octets that were encoded. *)
Lemma base64_shape units :
  byte_sized units ->
  exists digits pad vals,
    list_ascii_of_string (base64 units) = (digits ++ pad)%list
    /\ plain digits /\ padding pad
    /\ List.length (digits ++ pad)%list mod 4 = 0
    /\ List.length digits mod 4 <> 1
    /\ base64Values digits = Some vals
    /\ decodeSextets vals = units.
Proof.
  induction units as [|a|a b|a b c rest IH] using list_ind3; intros Hb.
  - exists [], [], []. repeat split; auto; try discriminate.
  - inversion Hb as [|? ? Ha _]; subst.
    destruct (base64Digit_sound (a / 4)) as [V1 [W1 P1]]; [nat_divmod|].
    destruct (base64Digit_sound (a mod 4 * 16)) as [V2 [W2 P2]]; [nat_divmod|].
    exists [base64Digit (a / 4); base64Digit (a mod 4 * 16)],
           ["="%char; "="%char], [a / 4; a mod 4 * 16].
    split; [reflexivity|]. split; [repeat constructor; assumption|].
    split; [auto|]. split; [reflexivity|]. split; [discriminate|].
    split; [cbn [base64Values]; now rewrite V1, V2|].
    cbn [decodeSextets]. f_equal. nat_divmod.
  - inversion Hb as [|? ? Ha Hb']; subst. inversion Hb' as [|? ? Hb2 _]; subst.
    destruct (base64Digit_sound (a / 4)) as [V1 [W1 P1]]; [nat_divmod|].
    destruct (base64Digit_sound (a mod 4 * 16 + b / 16)) as [V2 [W2 P2]];
      [nat_divmod|].
    destruct (base64Digit_sound (b mod 16 * 4)) as [V3 [W3 P3]]; [nat_divmod|].
    exists [base64Digit (a / 4); base64Digit (a mod 4 * 16 + b / 16);
            base64Digit (b mod 16 * 4)],
           ["="%char], [a / 4; a mod 4 * 16 + b / 16; b mod 16 * 4].
    split; [reflexivity|]. split; [repeat constructor; assumption|].
    split; [auto|]. split; [reflexivity|]. split; [discriminate|].
    split; [cbn [base64Values]; now rewrite V1, V2, V3|].
    cbn [decodeSextets]. f_equal; [|f_equal]; nat_divmod.
  - inversion Hb as [|? ? Ha Hb']; subst. inversion Hb' as [|? ? Hb2 Hb'']; subst.
    inversion Hb'' as [|? ? Hc Hrest]; subst.
    destruct (IH Hrest) as [digits [pad [vals [E [Hpl [Hpad [L1 [L2 [V D]]]]]]]]].
    destruct (base64Digit_sound (a / 4)) as [V1 [W1 P1]]; [nat_divmod|].
    destruct (base64Digit_sound (a mod 4 * 16 + b / 16)) as [V2 [W2 P2]];
      [nat_divmod|].
    destruct (base64Digit_sound (b mod 16 * 4 + c / 64)) as [V3 [W3 P3]];
      [nat_divmod|].
    destruct (base64Digit_sound (c mod 64)) as [V4 [W4 P4]]; [nat_divmod|].
    exists (base64Digit (a / 4) :: base64Digit (a mod 4 * 16 + b / 16)
            :: base64Digit (b mod 16 * 4 + c / 64) :: base64Digit (c mod 64)
            :: digits),
           pad,
           (a / 4 :: a mod 4 * 16 + b / 16 :: b mod 16 * 4 + c / 64
            :: c mod 64 :: vals).
    split; [cbn [base64 list_ascii_of_string app]; now rewrite E|].
    split; [repeat (constructor; [split; assumption|]); exact Hpl|].
    split; [exact Hpad|].
    split; [cbn [app List.length] in *; nat_divmod|].
    split; [cbn [List.length] in *; nat_divmod|].
    split; [cbn [base64Values]; now rewrite V1, V2, V3, V4, V|].
    cbn [decodeSextets]. rewrite D. f_equal; [|f_equal; [|f_equal]]; nat_divmod.
Qed.

Lemma forgivingDecode_base64 units :
  byte_sized units ->
  forgivingDecode (list_ascii_of_string (base64 units)) = Some units.
Proof.
  intros Hb.
  destruct (base64_shape units Hb)
    as [digits [pad [vals [E [Hpl [Hpad [L1 [L2 [V D]]]]]]]]].
  unfold forgivingDecode. cbv zeta. rewrite E.
  rewrite (filter_whitespace_app digits pad Hpl Hpad), L1.
  cbn [Nat.eqb]. rewrite (dropPadding_app digits pad Hpl Hpad).
  destruct (Nat.eqb_spec (List.length digits mod 4) 1) as [E1|_];
    [contradiction|].
  rewrite V. cbn [option_map]. now rewrite D.
Qed.

(** [atob] undoes [btoa]: whenever [btoa(text)] does not throw, [atob]
    of its result is [text] again. *)
Theorem atob_btoa text encoded :
  btoa text = Some encoded -> atob encoded = Some text.
Proof.
  unfold btoa, atob. intros H.
  change (map nat_of_ascii (list_ascii_of_string text)) with (bytesOf text) in H.
  destruct (latin1 (bytesOf text)) as [units|] eqn:L; [|discriminate].
  injection H as <-.
  destruct (binaryString_latin1 _ _ L) as [Hbin Hsized].
  rewrite (forgivingDecode_base64 units Hsized). cbn [option_map].
  now rewrite Hbin, textOf_bytesOf.
Qed.

(** [btoa] of the binary string holding the octets of some text is the
    base64 of these octets. *)
Lemma btoa_binaryString bytes :
  byte_sized bytes ->
  btoa (textOf (binaryString bytes)) = Some (base64 bytes).
Proof.
  intros Hb. unfold btoa.
  change (map nat_of_ascii (list_ascii_of_string ?t)) with (bytesOf t).
  rewrite bytesOf_textOf by now apply binaryString_byte_sized.
  now rewrite latin1_binaryString.
Qed.

Lemma decrypt_after_encrypt rt data :
  (isWeb rt = true -> validUtf8 (bytesOf data) = true) ->
  exists encrypted,
    encryptData rt data = Some encrypted
    /\ decryptData rt encrypted = Some data.
Proof.
  intros Hv. unfold encryptData, decryptData.
  destruct (isWeb rt); [|now exists data].
  specialize (Hv eq_refl). unfold unescapeEncodeURIComponent. rewrite Hv.
  pose proof (bytesOf_byte_sized data) as Hb.
  exists (base64 (bytesOf data)).
  split; [now apply btoa_binaryString|].
  unfold atob. rewrite (forgivingDecode_base64 _ Hb). cbn [option_map].
  unfold decodeURIComponentEscape.
  rewrite bytesOf_textOf by now apply binaryString_byte_sized.
  rewrite (latin1_binaryString _ Hb), Hv. now rewrite textOf_bytesOf.
Qed.

(** X5. Decryption undoes encryption: on the web for every well-formed
    text, elsewhere for every text, [encryptData] returns a value and
    [decryptData] of that value is the text. *)
Theorem decryptData_encryptData rt data :
  (isWeb rt = true -> validUtf8 (bytesOf data) = true) ->
  exists encrypted,
    encryptData rt data = Some encrypted
    /\ decryptData rt encrypted = Some data.
Proof. exact (decrypt_after_encrypt rt data). Qed.

(** ** Secure storage *)

Lemma base64_empty units : base64 units = "" -> units = [].
Proof.
  destruct units as [|a [|b [|c rest]]]; [reflexivity|discriminate..].
Qed.

Lemma bytesOf_empty text : bytesOf text = [] -> text = "".
Proof. destruct text; [reflexivity|discriminate]. Qed.

Lemma secure_key_inj key key' :
  ("secure_" ++ key' =? "secure_" ++ key) = (key' =? key).
Proof. reflexivity. Qed.

(** X6. What is stored under a key is what is read back from it, with one
    exception: on the web an empty value is read back as [null], because
    its encryption is the empty string and [getSecureData] takes an empty
    entry for a missing one.  (On the web the value must be well-formed
    text, or [storeSecureData] throws.) *)
Theorem getSecureData_storeSecureData rt key value st :
  (isWeb rt = true -> validUtf8 (bytesOf value) = true) ->
  exists st',
    storeSecureData rt key value st = Some st'
    /\ getSecureData rt key st'
       = if isWeb rt && (value =? "") then None else Some value.
Proof.
  intros Hv. destruct (decrypt_after_encrypt rt value Hv) as [e [He Hd]].
  unfold storeSecureData, getSecureData. rewrite He.
  destruct (isWeb rt) eqn:W.
  - eexists. split; [reflexivity|].
    unfold getItem, setItem. rewrite String.eqb_refl. cbn [andb].
    destruct (String.eqb_spec value "") as [->|Hne].
    + unfold encryptData in He. rewrite W in He. cbn in He.
      injection He as <-. reflexivity.
    + destruct (String.eqb_spec e "") as [->|_]; [|now rewrite Hd].
      exfalso. apply Hne. specialize (Hv eq_refl).
      unfold encryptData, unescapeEncodeURIComponent in He.
      rewrite W, Hv in He.
      rewrite (btoa_binaryString _ (bytesOf_byte_sized value)) in He.
      injection He as He. apply bytesOf_empty. now apply base64_empty.
  - eexists. split; [reflexivity|].
    unfold getItem, setItem. now rewrite String.eqb_refl.
Qed.

(** X7. Keys do not interfere: storing or deleting under one key leaves
    what is read from every other key as it was, and after
    [deleteSecureData] the key itself reads as [null]. *)
Theorem secure_keys_independent rt key key' value st :
  getSecureData rt key (deleteSecureData rt key st) = None
  /\ (key' <> key ->
      getSecureData rt key' (deleteSecureData rt key st)
      = getSecureData rt key' st
      /\ forall st', storeSecureData rt key value st = Some st' ->
                     getSecureData rt key' st' = getSecureData rt key' st).
Proof.
  split.
  - unfold getSecureData, deleteSecureData, getItem, removeItem.
    destruct (isWeb rt); now rewrite String.eqb_refl.
  - intros Hne. apply String.eqb_neq in Hne. split.
    + unfold getSecureData, deleteSecureData, getItem, removeItem.
      destruct (isWeb rt); cbv beta; now rewrite secure_key_inj, Hne.
    + intros st' Hs. unfold storeSecureData in Hs.
      unfold getSecureData, getItem.
      destruct (isWeb rt).
      * destruct (encryptData _ value) as [e|]; [|discriminate].
        assert (E : st' = setItem ("secure_" ++ key) e st) by congruence.
        rewrite E. unfold setItem. cbv beta.
        now rewrite secure_key_inj, Hne.
      * assert (E : st' = setItem ("secure_" ++ key) value st) by congruence.
        rewrite E. unfold setItem. cbv beta.
        now rewrite secure_key_inj, Hne.
Qed.

(** ** Password hashes without a digest *)

Section Fallback.

Variable subtleDigest : list ascii -> option (list ascii).
Variable digestStringAsync : string -> option string.

Local Abbreviation hashPassword :=
  (SecurityUtils.hashPassword subtleDigest digestStringAsync).
Local Abbreviation verifyPassword :=
  (SecurityUtils.verifyPassword subtleDigest digestStringAsync).

Lemma length_append (a b : string) :
  String.length (a ++ b) = String.length a + String.length b.
Proof. induction a as [|c a IH]; [reflexivity|]. simpl. now rewrite IH. Qed.

Lemma append_cancel_r (a b c : string) : a ++ c = b ++ c -> a = b.
Proof.
  revert b. induction a as [|x a IH]; intros b H.
  - destruct b as [|y b]; [reflexivity|].
    apply (f_equal String.length) in H. simpl in H.
    rewrite length_append in H. lia.
  - destruct b as [|y b].
    + apply (f_equal String.length) in H. simpl in H.
      rewrite length_append in H. lia.
    + simpl in H. injection H as <- H. f_equal. now apply IH.
Qed.

Lemma fallback_hashPassword rt draw password salt :
  isWeb rt = false -> hasCrypto rt = false ->
  hashPassword rt draw password salt =
    match btoa (password ++ orElse salt (jsSubstring 2 18 (base36 draw))) with
    | Some hash => Some (hash, orElse salt (jsSubstring 2 18 (base36 draw)))
    | None => None
    end.
Proof.
  intros W C. unfold SecurityUtils.hashPassword. now rewrite W, C.
Qed.

(** X8. Where neither the browser nor expo-crypto provides a digest, the
    "hash" gives the password away: decoding it with [atob] returns the
    password followed by the salt. *)
Theorem fallback_hash_reveals_password rt draw password salt hash salt' :
  isWeb rt = false -> hasCrypto rt = false ->
  hashPassword rt draw password salt = Some (hash, salt') ->
  atob hash = Some (password ++ salt').
Proof.
  intros W C H. rewrite (fallback_hashPassword _ _ _ _ W C) in H.
  destruct (btoa _) as [h|] eqn:B; [|discriminate].
  injection H as <- <-. now apply atob_btoa.
Qed.

(** X9. Without a digest, and for a salt that is not empty, the passwords
    [verifyPassword] accepts against a hash made with that salt are the
    password the hash was made from, and no other. *)
Theorem fallback_verifyPassword_exact rt draw draw' password password' salt hash :
  isWeb rt = false -> hasCrypto rt = false ->
  salt <> "" ->
  hashPassword rt draw password (Some salt) = Some (hash, salt) ->
  (verifyPassword rt draw' password' hash salt = true <-> password' = password).
Proof.
  intros W C Hs H.
  rewrite (fallback_hashPassword _ _ _ _ W C) in H.
  rewrite (SecurityProperties.orElse_given _ _ Hs) in H.
  destruct (btoa (password ++ salt)) as [h|] eqn:B; [|discriminate].
  injection H as <-.
  unfold SecurityUtils.verifyPassword.
  rewrite (fallback_hashPassword _ _ _ _ W C).
  rewrite (SecurityProperties.orElse_given _ _ Hs).
  split.
  - destruct (btoa (password' ++ salt)) as [h'|] eqn:B'; [|discriminate].
    intros E. apply String.eqb_eq in E. subst h'.
    apply atob_btoa in B, B'. rewrite B in B'. injection B' as B'.
    symmetry. now apply append_cancel_r with (c := salt).
  - intros ->. rewrite B. apply String.eqb_refl.
Qed.

(** X10. A salt that is given and not empty takes randomness out of
    [hashPassword]: the result does not depend on what [Math.random()]
    returns, and the salt returned is the salt given. *)
Theorem hashPassword_given_salt rt draw draw' password salt :
  salt <> "" ->
  hashPassword rt draw password (Some salt)
  = hashPassword rt draw' password (Some salt)
  /\ forall hash salt',
       hashPassword rt draw password (Some salt) = Some (hash, salt') ->
       salt' = salt.
Proof.
  intros Hs. unfold SecurityUtils.hashPassword.
  rewrite !(SecurityProperties.orElse_given _ _ Hs).
  destruct (String.eqb_spec salt ""); [contradiction|].
  split; [reflexivity|]. intros hash salt'.
  destruct (isWeb rt); [|destruct (hasCrypto rt)].
  - destruct (subtleDigest _); [|discriminate]. now intros [= _ <-].
  - destruct (digestStringAsync _); [|discriminate]. now intros [= _ <-].
  - destruct (btoa _); [|discriminate]. now intros [= _ <-].
Qed.

End Fallback.

(** ** Tokens and keys *)

Lemma hexString_cons b l : hexString (b :: l) = hexByte b ++ hexString l.
Proof. reflexivity. Qed.

Lemma length_hexString l : String.length (hexString l) = 2 * List.length l.
Proof.
  induction l as [|b l IH]; [reflexivity|].
  rewrite hexString_cons. cbn [hexByte append String.length List.length].
  rewrite IH. lia.
Qed.

Lemma hexString_app l1 l2 :
  hexString (l1 ++ l2)%list = hexString l1 ++ hexString l2.
Proof.
  induction l1 as [|b l1 IH]; [reflexivity|].
  cbn [app]. rewrite !hexString_cons, IH.
  cbn [hexByte append]. reflexivity.
Qed.

Lemma length_substring_le k n s : String.length (substring k n s) <= n.
Proof.
  revert k n. induction s as [|c s IH]; intros k n.
  - destruct k, n; simpl; lia.
  - destruct k as [|k].
    + destruct n as [|n]; [simpl; lia|]. simpl. specialize (IH 0 n). lia.
    + simpl. apply IH.
Qed.

Lemma substring_0_app n a b :
  n <= String.length a -> substring 0 n (a ++ b) = substring 0 n a.
Proof.
  revert n. induction a as [|c a IH]; intros n H.
  - simpl in H. assert (n = 0) by lia. subst. now destruct b.
  - destruct n as [|n]; [reflexivity|].
    simpl. f_equal. apply IH. simpl in H. lia.
Qed.

Lemma length_substring_0 n s :
  n <= String.length s -> String.length (substring 0 n s) = n.
Proof.
  revert n. induction s as [|c s IH]; intros n H.
  - simpl in H. assert (n = 0) by lia. now subst.
  - destruct n as [|n]; [reflexivity|]. simpl. f_equal. apply IH.
    simpl in H. lia.
Qed.

Lemma substring_0_all s : substring 0 (String.length s) s = s.
Proof. induction s as [|c s IH]; [reflexivity|]. simpl. now rewrite IH. Qed.

(** Only the first [k] bytes matter to the first [n <= 2k] hex digits. *)
Lemma substring_hexString_firstn n k l :
  n <= 2 * k ->
  substring 0 n (hexString l) = substring 0 n (hexString (firstn k l)).
Proof.
  intros H. destruct (Nat.le_gt_cases (List.length l) k) as [Hk|Hk].
  - now rewrite firstn_all2.
  - rewrite <- (firstn_skipn k l) at 1. rewrite hexString_app.
    apply substring_0_app. rewrite length_hexString, length_firstn. lia.
Qed.

Section TokenFacts.

Variable digestStringAsync : string -> option string.

(** X11. [generateSecureToken(length)] never returns more than [length]
    characters.  On the web, for a [length] that [crypto.getRandomValues]
    accepts (at most 65536), it returns exactly [length] of them, and they
    are the hex digits of the first half of the random bytes only: two
    arrays that agree on their first [(length + 1) / 2] bytes give the same
    token.  For a greater [length] it throws. *)
Theorem generateSecureToken_length rt randomArray draw now36 n :
  (forall token,
     generateSecureToken digestStringAsync rt randomArray draw now36 n
     = Some token ->
     String.length token <= n)
  /\ (isWeb rt = true -> n <= randomValuesQuota ->
      List.length randomArray = n ->
      exists token,
        generateSecureToken digestStringAsync rt randomArray draw now36 n
        = Some token
        /\ String.length token = n
        /\ forall randomArray',
             firstn ((n + 1) / 2) randomArray'
             = firstn ((n + 1) / 2) randomArray ->
             generateSecureToken digestStringAsync rt randomArray' draw now36 n
             = Some token)
  /\ (isWeb rt = true -> randomValuesQuota < n ->
      generateSecureToken digestStringAsync rt randomArray draw now36 n = None).
Proof.
  unfold generateSecureToken, jsSubstring.
  rewrite !Nat.sub_0_r. replace (2 + n - 2) with n by lia.
  split; [|split].
  - intros token H.
    destruct (isWeb rt); [|destruct (hasCrypto rt)].
    + destruct (randomValuesQuota <? n)%nat; [discriminate|].
      injection H as <-. apply length_substring_le.
    + destruct (digestStringAsync _); [|discriminate]. injection H as <-.
      apply length_substring_le.
    + injection H as <-. apply length_substring_le.
  - intros W Hq L. rewrite W.
    destruct (Nat.ltb_spec randomValuesQuota n) as [Hlt|_]; [lia|].
    eexists. split; [reflexivity|]. split.
    + apply length_substring_0. rewrite length_hexString. lia.
    + intros randomArray' E. f_equal.
      assert (Hn : n <= 2 * ((n + 1) / 2)) by nat_divmod.
      rewrite (substring_hexString_firstn n _ randomArray' Hn), E.
      symmetry. now apply substring_hexString_firstn.
  - intros W Hq. rewrite W.
    destruct (Nat.ltb_spec randomValuesQuota n) as [_|Hle]; [reflexivity|lia].
Qed.

(** X12. On the web, the key of [generateEncryptionKey] is the 32 hex digits
    of the first 16 of its 32 random bytes and the iv the 16 hex digits of
    the first 8 of its 16: the other half of each array is drawn and not
    used. *)
Theorem generateEncryptionKey_web rt random32 random16 drawKey drawIv now10 :
  isWeb rt = true ->
  List.length random32 = 32 -> List.length random16 = 16 ->
  exists key iv,
    generateEncryptionKey digestStringAsync rt random32 random16
      drawKey drawIv now10 = Some (key, iv)
    /\ key = hexString (firstn 16 random32)
    /\ iv = hexString (firstn 8 random16)
    /\ String.length key = 32 /\ String.length iv = 16.
Proof.
  intros W L32 L16. unfold generateEncryptionKey, jsSubstring. rewrite W.
  do 2 eexists. split; [reflexivity|].
  assert (K : substring 0 (32 - 0) (hexString random32)
              = hexString (firstn 16 random32)).
  { cbn [Nat.sub].
    rewrite (substring_hexString_firstn 32 16 random32) by lia.
    rewrite <- (substring_0_all (hexString (firstn 16 random32))) at 2.
    rewrite length_hexString, length_firstn, L32. reflexivity. }
  assert (I : substring 0 (16 - 0) (hexString random16)
              = hexString (firstn 8 random16)).
  { cbn [Nat.sub].
    rewrite (substring_hexString_firstn 16 8 random16) by lia.
    rewrite <- (substring_0_all (hexString (firstn 8 random16))) at 2.
    rewrite length_hexString, length_firstn, L16. reflexivity. }
  rewrite K, I. repeat split.
  - rewrite length_hexString, length_firstn, L32. reflexivity.
  - rewrite length_hexString, length_firstn, L16. reflexivity.
Qed.

End TokenFacts.

End SecurityRoundTrips.

(** * Properties of the localisation providers *)
Module I18nProperties.
Import I18n.

Section Locale.

Variable inheritedProperty : string -> bool.

Local Abbreviation hasTranslations := (I18n.hasTranslations inheritedProperty).
Local Abbreviation supportedLocale := (I18n.supportedLocale inheritedProperty).
Local Abbreviation loadSavedLanguage :=
  (I18n.loadSavedLanguage inheritedProperty).
Local Abbreviation changeLanguage := (I18n.changeLanguage inheritedProperty).
Local Abbreviation deviceEffect := (I18n.deviceEffect inheritedProperty).
Local Abbreviation act := (I18n.act inheritedProperty).
Local Abbreviation actAll := (I18n.actAll inheritedProperty).

Lemma supportedLocale_hasTranslations deviceLocale :
  hasTranslations (supportedLocale deviceLocale) = true.
Proof.
  unfold I18n.supportedLocale.
  destruct (hasTranslations (firstSegment deviceLocale)) eqn:E; [exact E|].
  reflexivity.
Qed.

Lemma act_keeps_supported a p :
  hasTranslations (locale p) = true /\ i18nLocale p = locale p ->
  hasTranslations (locale (act a p)) = true
  /\ i18nLocale (act a p) = locale (act a p).
Proof.
  intros [H1 H2]. destruct a as [rejects deviceLocale|rejects newLocale];
    cbn [I18n.act].
  - unfold I18n.loadSavedLanguage. destruct rejects; [now split|].
    destruct (language p) as [saved|];
      [|split; [apply supportedLocale_hasTranslations|reflexivity]].
    destruct (negb (saved =? "")); cbn [andb];
      [|split; [apply supportedLocale_hasTranslations|reflexivity]].
    destruct (hasTranslations saved) eqn:E;
      [now split|split; [apply supportedLocale_hasTranslations|reflexivity]].
  - unfold I18n.changeLanguage.
    destruct (hasTranslations newLocale) eqn:E; [|now split].
    destruct rejects; now split.
Qed.

(** X13. Whatever the stored entry, the device locale and the outcome of the
    storage calls, and whatever [changeLanguage] is asked for, the locale of
    the remembering provider is always one [translations] has an entry for,
    and the i18n instance always has the same locale as the state cell.
    When no name reaches [translations] through its prototype, the locale
    is [ar] or [en]. *)
Theorem locale_always_supported actions stored :
  hasTranslations (locale (actAll actions (savedProvider stored))) = true
  /\ i18nLocale (actAll actions (savedProvider stored))
     = locale (actAll actions (savedProvider stored))
  /\ ((forall name, inheritedProperty name = false) ->
      locale (actAll actions (savedProvider stored)) = "ar"
      \/ locale (actAll actions (savedProvider stored)) = "en").
Proof.
  assert (H : forall p,
            hasTranslations (locale p) = true /\ i18nLocale p = locale p ->
            hasTranslations (locale (actAll actions p)) = true
            /\ i18nLocale (actAll actions p) = locale (actAll actions p)).
  { unfold I18n.actAll. induction actions as [|a l IH]; intros p Hp; [exact Hp|].
    cbn [fold_left]. apply IH. now apply act_keeps_supported. }
  destruct (H (savedProvider stored)) as [H1 H2]; [now split|].
  split; [exact H1|]. split; [exact H2|].
  intros Hno. unfold I18n.hasTranslations in H1. rewrite Hno in H1.
  rewrite orb_false_r in H1. apply orb_true_iff in H1.
  destruct H1 as [E|E]; apply String.eqb_eq in E; auto.
Qed.

(** X14. A language chosen with [changeLanguage] is in force at once and,
    when [AsyncStorage] took it, still after a restart, whatever the device
    locale.  When [setItem] rejects, it is in force now but the stored
    entry, which decides after a restart, is the old one. *)
Theorem changeLanguage_survives_restart newLocale deviceLocale p :
  newLocale = "ar" \/ newLocale = "en" ->
  locale (changeLanguage false newLocale p) = newLocale
  /\ locale (loadSavedLanguage false deviceLocale
               (savedProvider (language (changeLanguage false newLocale p))))
     = newLocale
  /\ locale (changeLanguage true newLocale p) = newLocale
  /\ language (changeLanguage true newLocale p) = language p.
Proof.
  intros H.
  assert (Ht : hasTranslations newLocale = true)
    by (destruct H as [->| ->]; reflexivity).
  assert (Hne : (newLocale =? "") = false)
    by (destruct H as [->| ->]; reflexivity).
  unfold I18n.changeLanguage, I18n.loadSavedLanguage. rewrite Ht.
  cbn [locale language setBoth savedProvider]. rewrite Hne, Ht.
  cbn [negb andb locale setBoth]. now repeat split.
Qed.

(** X15. After the effect of the device-locale provider has run, the layout
    is right-to-left exactly when the language part of the device locale
    (what comes before the first hyphen) is [ar]; so it is for every locale
    of the form [ar-REGION]. *)
Theorem deviceEffect_isRTL deviceLocale p :
  isRTL (deviceEffect deviceLocale p) = (firstSegment deviceLocale =? "ar")
  /\ forall region, isRTL (deviceEffect ("ar-" ++ region) p) = true.
Proof.
  assert (H : forall d, isRTL (deviceEffect d p) = (firstSegment d =? "ar")).
  { intros d. unfold isRTL, I18n.deviceEffect, I18n.supportedLocale.
    cbn [locale setBoth]. unfold I18n.hasTranslations.
    destruct (firstSegment d =? "ar") eqn:E; cbn [orb]; [exact E|].
    destruct ((firstSegment d =? "en") || inheritedProperty (firstSegment d));
      [exact E|reflexivity]. }
  split; [apply H|]. intros region. rewrite H. reflexivity.
Qed.

End Locale.
End I18nProperties.

(** * The further properties at concrete inputs *)
Module Examples.
Import Scanner.

Lemma valid_confirmed_then_used_witness :
  snd (confirmEntry Demo.scannedValid Demo.scannedValid) = Some entryConfirmed
  /\ exists r' tail,
       scanResult
         (Demo.processQRCode
            (fst (confirmEntry Demo.scannedValid Demo.scannedValid))
            "MI3AD-001"
            (fst (confirmEntry Demo.scannedValid Demo.scannedValid)))
       = Some r'
       /\ type r' = warning
       /\ "تذكرة صحيحة!" ++ nl ++ "عدد التذاكر: 2" ++ nl ++ "السعر: مجاني"
          = "تذكرة صحيحة!" ++ tail
       /\ message r' = "تم استخدام هذه التذكرة مسبقاً" ++ tail.
Proof.
  destruct (ScannerScenarios.valid_confirmed_then_used
              Demo.isZero Demo.numToString Demo.mounted "MI3AD-001" Demo.mounted
              {| type := success;
                 title := "تذكرة صالحة ✅";
                 message := "تذكرة صحيحة!" ++ nl ++ "عدد التذاكر: 2" ++ nl ++
                            "السعر: مجاني" |}
              eq_refl eq_refl eq_refl Demo.scannedValid eq_refl)
    as [H1 H2].
  split; [exact H1|].
  exact (H2 (fst (confirmEntry Demo.scannedValid Demo.scannedValid))
            (fst (confirmEntry Demo.scannedValid Demo.scannedValid)) eq_refl).
Defined.

Lemma handleBarCodeScanned_after_reset_witness :
  scanResult (Demo.handleBarCodeScanned (resetScanner Demo.scannedValid)
                "MI3AD-001" (resetScanner Demo.scannedValid))
  = scanResult (Demo.processQRCode (resetScanner Demo.scannedValid)
                  "MI3AD-001" Demo.scannedValid)
  /\ scanned (Demo.handleBarCodeScanned (resetScanner Demo.scannedValid)
                "MI3AD-001" (resetScanner Demo.scannedValid)) = true
  /\ lastScannedCode (Demo.handleBarCodeScanned (resetScanner Demo.scannedValid)
                        "MI3AD-001" (resetScanner Demo.scannedValid))
     = "MI3AD-001".
Proof.
  apply (proj1 (ScannerScenarios.handleBarCodeScanned_after_reset
                  Demo.isZero Demo.numToString (resetScanner Demo.scannedValid)
                  "MI3AD-001" Demo.scannedValid)).
  - reflexivity.
  - discriminate.
Defined.

Lemma confirmEntry_after_reset_witness :
  confirmEntry (resetScanner Demo.scannedValid) (resetScanner Demo.scannedValid)
  = (resetScanner Demo.scannedValid, None)
  /\ (let s := setBookings (Demo.blankCode :: Demo.store) Demo.scannedValid in
      snd (confirmEntry (resetScanner s) (resetScanner s))
      = Some entryConfirmed).
Proof.
  split.
  - apply (proj1 (proj2 (proj2
             (ScannerScenarios.confirmEntry_after_reset
                (resetScanner Demo.scannedValid) Demo.scannedValid)))).
    simpl. intros b [<-|[<-|[<-|[]]]]; discriminate.
  - intros s.
    apply (proj2 (proj2 (proj2
             (ScannerScenarios.confirmEntry_after_reset (resetScanner s) s)))
             Demo.blankCode); reflexivity.
Defined.

Lemma atob_btoa_witness : SecurityUtils.atob "SGVsbG8sIOkh" = Some "Hello, é!".
Proof.
  apply (SecurityRoundTrips.atob_btoa "Hello, é!" "SGVsbG8sIOkh").
  reflexivity.
Defined.

Lemma decryptData_encryptData_witness :
  exists encrypted,
    SecurityUtils.encryptData Demo.web "تذكرة ✅" = Some encrypted
    /\ SecurityUtils.decryptData Demo.web encrypted = Some "تذكرة ✅".
Proof.
  apply (SecurityRoundTrips.decryptData_encryptData Demo.web "تذكرة ✅").
  reflexivity.
Defined.

Lemma getSecureData_storeSecureData_witness :
  (exists st',
     SecurityUtils.storeSecureData Demo.web "token" "secret ✅"
       SecurityUtils.emptyStorage = Some st'
     /\ SecurityUtils.getSecureData Demo.web "token" st' = Some "secret ✅")
  /\ (exists st',
        SecurityUtils.storeSecureData Demo.web "token" ""
          SecurityUtils.emptyStorage = Some st'
        /\ SecurityUtils.getSecureData Demo.web "token" st' = None).
Proof.
  split.
  - apply (SecurityRoundTrips.getSecureData_storeSecureData
             Demo.web "token" "secret ✅" SecurityUtils.emptyStorage).
    reflexivity.
  - apply (SecurityRoundTrips.getSecureData_storeSecureData
             Demo.web "token" "" SecurityUtils.emptyStorage).
    reflexivity.
Defined.

Lemma secure_keys_independent_witness :
  let st := SecurityUtils.setItem "secure_pin" "1234" SecurityUtils.emptyStorage in
  SecurityUtils.getSecureData Demo.native "pin"
    (SecurityUtils.deleteSecureData Demo.native "token" st)
  = SecurityUtils.getSecureData Demo.native "pin" st.
Proof.
  intros st.
  destruct (proj2 (SecurityRoundTrips.secure_keys_independent
                     Demo.native "token" "pin" "" st)
              ltac:(discriminate)) as [H _].
  exact H.
Defined.

Lemma fallback_hash_reveals_password_witness :
  SecurityUtils.atob "cHdp" = Some "pwi".
Proof.
  apply (SecurityRoundTrips.fallback_hash_reveals_password
           (fun _ => None) (fun _ => None)
           Demo.noCrypto Demo.drawHalf "pw" None "cHdp" "i");
    reflexivity.
Defined.

Lemma fallback_verifyPassword_exact_witness :
  SecurityUtils.verifyPassword (fun _ => None) (fun _ => None)
    Demo.noCrypto Demo.drawZero "pW" "cHdp" "i" = true
  <-> "pW" = "pw".
Proof.
  apply (SecurityRoundTrips.fallback_verifyPassword_exact
           (fun _ => None) (fun _ => None)
           Demo.noCrypto Demo.drawHalf Demo.drawZero "pw" "pW" "i" "cHdp");
    try reflexivity.
  discriminate.
Defined.

Lemma hashPassword_given_salt_witness :
  SecurityUtils.hashPassword (fun _ => None) (fun _ => None)
    Demo.noCrypto Demo.drawZero "pw" (Some "i")
  = SecurityUtils.hashPassword (fun _ => None) (fun _ => None)
      Demo.noCrypto Demo.drawHalf "pw" (Some "i").
Proof.
  apply (proj1 (SecurityRoundTrips.hashPassword_given_salt
                  (fun _ => None) (fun _ => None)
                  Demo.noCrypto Demo.drawZero Demo.drawHalf "pw" "i"
                  ltac:(discriminate))).
Defined.

Lemma generateSecureToken_length_witness :
  String.length "414" <= 3
  /\ (exists token,
        SecurityUtils.generateSecureToken (fun _ => None) Demo.web
          (list_ascii_of_string "ABC") Demo.drawZero "" 3 = Some token
        /\ String.length token = 3
        /\ SecurityUtils.generateSecureToken (fun _ => None) Demo.web
             (list_ascii_of_string "AB?") Demo.drawZero "" 3 = Some token)
  /\ SecurityUtils.generateSecureToken (fun _ => None) Demo.web
       (list_ascii_of_string "ABC") Demo.drawZero ""
       (S SecurityUtils.randomValuesQuota) = None.
Proof.
  split; [|split].
  - apply (proj1 (SecurityRoundTrips.generateSecureToken_length
                    (fun _ => None) Demo.web (list_ascii_of_string "ABC")
                    Demo.drawZero "" 3) "414").
    reflexivity.
  - destruct (proj1 (proj2 (SecurityRoundTrips.generateSecureToken_length
                              (fun _ => None) Demo.web
                              (list_ascii_of_string "ABC") Demo.drawZero "" 3))
                eq_refl ltac:(unfold SecurityUtils.randomValuesQuota; lia)
                eq_refl)
      as [token [H1 [H2 H3]]].
    exists token. split; [exact H1|]. split; [exact H2|].
    apply H3. reflexivity.
  - apply (proj2 (proj2 (SecurityRoundTrips.generateSecureToken_length
                           (fun _ => None) Demo.web
                           (list_ascii_of_string "ABC") Demo.drawZero ""
                           (S SecurityUtils.randomValuesQuota)))).
    + reflexivity.
    + apply Nat.lt_succ_diag_r.
Defined.

Lemma generateEncryptionKey_web_witness :
  exists key iv,
    SecurityUtils.generateEncryptionKey (fun _ => None) Demo.web
      (repeat "A"%char 16 ++ repeat "z"%char 16)%list
      (repeat "B"%char 8 ++ repeat "z"%char 8)%list
      Demo.drawZero Demo.drawZero "" = Some (key, iv)
    /\ key = SecurityUtils.hexString
               (firstn 16 (repeat "A"%char 16 ++ repeat "z"%char 16)%list)
    /\ iv = SecurityUtils.hexString
              (firstn 8 (repeat "B"%char 8 ++ repeat "z"%char 8)%list)
    /\ String.length key = 32 /\ String.length iv = 16.
Proof.
  apply (SecurityRoundTrips.generateEncryptionKey_web (fun _ => None) Demo.web);
    reflexivity.
Defined.

Lemma locale_always_supported_witness :
  let p := I18n.actAll Demo.noInherited
             [I18n.Load false "fr-FR"; I18n.Change false "ar";
              I18n.Change true "de"; I18n.Load false "en-US"]
             (I18n.savedProvider (Some "constructor")) in
  I18n.locale p = "ar" \/ I18n.locale p = "en".
Proof.
  intros p.
  apply (proj2 (proj2 (I18nProperties.locale_always_supported
                         Demo.noInherited
                         [I18n.Load false "fr-FR"; I18n.Change false "ar";
                          I18n.Change true "de"; I18n.Load false "en-US"]
                         (Some "constructor")))).
  reflexivity.
Defined.

Lemma changeLanguage_survives_restart_witness :
  I18n.locale
    (I18n.loadSavedLanguage Demo.objectPrototype false "en-US"
       (I18n.savedProvider
          (I18n.language
             (I18n.changeLanguage Demo.objectPrototype false "ar"
                (I18n.savedProvider None)))))
  = "ar".
Proof.
  apply (proj1 (proj2 (I18nProperties.changeLanguage_survives_restart
                         Demo.objectPrototype "ar" "en-US"
                         (I18n.savedProvider None) (or_introl eq_refl)))).
Defined.

End Examples.
